(** * meshcat.visualizer: the window and scoped-view protocol core

    A shallow embedding of [src/meshcat/visualizer.py]: the handshake
    parser ([capture], [match_zmq_url], [match_web_url]), the class
    [ViewerWindow] (spawn or attach, the request/reply calls) and the class
    [Visualizer] (a window reference and a path).

    Python objects live in a heap and are named by their address, so two
    views over one window alias it.  Effects are threaded through a state
    and exception monad over a [World]: the heap, the ZeroMQ sockets, the
    spawned processes, the exit hooks and a trace of what the program did
    to its environment.  What the environment answers (the banner of a
    spawned server, the replies of the peer) is part of the world too. *)

From Stdlib Require Import ZArith NArith Ascii String List.
From stdpp Require Import base option list strings.

Open Scope string_scope.
Open Scope list_scope.
Set Warnings "-register-all".

(** ** Python [bytes] and [str]

    [bytes] is a list of octets.  A [str] is held as the octets of its
    UTF-8 form: [encode] is then the identity on the octets and [decode]
    is the validity check of the codec.  A [str] with a lone surrogate,
    the only kind ["utf-8"] refuses to encode, is outside the model. *)

Definition bytes := list Byte.byte.
Definition str := string.

Definition encode_utf8 (s : str) : bytes := list_byte_of_string s.

Definition continuation (b : N) : bool := ((128 <=? b) && (b <=? 191))%N.

(** The well-formed byte sequences of UTF-8 (Unicode, table 3-7): no
    overlong form, no surrogate, nothing above U+10FFFF. *)
Fixpoint utf8_wf (fuel : nat) (l : list N) : bool :=
  match fuel with
  | O => match l with [] => true | _ => false end
  | S fuel =>
    match l with
    | [] => true
    | b0 :: l1 =>
      if (b0 <? 128)%N then utf8_wf fuel l1
      else if ((194 <=? b0) && (b0 <=? 223))%N then
        match l1 with
        | b1 :: l2 => continuation b1 && utf8_wf fuel l2
        | _ => false
        end
      else if ((224 <=? b0) && (b0 <=? 239))%N then
        match l1 with
        | b1 :: b2 :: l3 =>
          (if (b0 =? 224)%N then (160 <=? b1) && (b1 <=? 191)
           else if (b0 =? 237)%N then (128 <=? b1) && (b1 <=? 159)
           else continuation b1)%N
          && continuation b2 && utf8_wf fuel l3
        | _ => false
        end
      else if ((240 <=? b0) && (b0 <=? 244))%N then
        match l1 with
        | b1 :: b2 :: b3 :: l4 =>
          (if (b0 =? 240)%N then (144 <=? b1) && (b1 <=? 191)
           else if (b0 =? 244)%N then (128 <=? b1) && (b1 <=? 143)
           else continuation b1)%N
          && continuation b2 && continuation b3 && utf8_wf fuel l4
        | _ => false
        end
      else false
    end
  end.

Definition utf8_valid (b : bytes) : bool :=
  utf8_wf (length b) (map Byte.to_N b).

(** [b.decode("utf-8")]: [None] stands for [UnicodeDecodeError]. *)
Definition decode_utf8 (b : bytes) : option str :=
  if utf8_valid b then Some (string_of_list_byte b) else None.

(** [bytes.strip()]: the ASCII white space of Python, [b" \t\n\r\x0b\x0c"]. *)
Definition is_space (b : Byte.byte) : bool :=
  let n := Byte.to_N b in ((n =? 32) || ((9 <=? n) && (n <=? 13)))%N.

Fixpoint lstrip (b : bytes) : bytes :=
  match b with
  | [] => []
  | c :: r => if is_space c then lstrip r else b
  end.

Definition rstrip (b : bytes) : bytes := rev (lstrip (rev b)).

Definition strip (b : bytes) : bytes := rstrip (lstrip b).

Definition newline : ascii := ascii_of_nat 10.
Definition NL : Byte.byte := Byte.x0a.

(** ** Exceptions *)

Inductive Exception :=
| ValueError (msg : str)
| TypeError (msg : str)
| AttributeError (msg : str)
| KeyError (key : str)
| UnicodeDecodeError
| UnsupportedTypeException
| ZMQError (msg : str).

(** ** The handshake parser

    The two patterns of the module have one shape: a caret, a literal, one
    group holding dot-star, a dollar.  [re.match] anchors at the start; the
    dot takes any character but a line feed, and the dollar holds at the end
    of the string or just before a line feed that ends it.  So the pattern
    matches when the string starts with the literal and what follows has no
    line feed except possibly as its last character, and the group is what
    follows up to that line feed. *)

Record Pattern := { literal : str }.

Definition pattern_text (p : Pattern) : str := "^" +:+ literal p +:+ "(.*)$".

Fixpoint strip_prefix (p s : string) : option string :=
  match p with
  | EmptyString => Some s
  | String a p' =>
    match s with
    | String b s' => if Ascii.eqb a b then strip_prefix p' s' else None
    | EmptyString => None
    end
  end.

(** The group of dot-star followed by the dollar on [s], if it matches. *)
Fixpoint dot_star_eol (s : string) : option string :=
  match s with
  | EmptyString => Some EmptyString
  | String c r =>
    if Ascii.eqb c newline then
      match r with EmptyString => Some EmptyString | _ => None end
    else option_map (String c) (dot_star_eol r)
  end.

Definition re_match (p : Pattern) (s : str) : option str :=
  match strip_prefix (literal p) s with
  | Some rest => dot_star_eol rest
  | None => None
  end.

Definition capture (pattern : Pattern) (s : str) : Exception + str :=
  match re_match pattern s with
  | None =>
    inl (ValueError ("Could not match " +:+ s +:+ " with pattern " +:+ pattern_text pattern))
  | Some g => inr g
  end.

Definition match_zmq_url (line : str) : Exception + str :=
  capture {| literal := "zmq_url=" |} line.

Definition match_web_url (line : str) : Exception + str :=
  capture {| literal := "web_url=" |} line.

(** ** Values, paths and commands

    [Value] is what a lowered command is made of, and what [umsgpack.packb]
    serialises.  A float is held as its binary64 bit pattern: no arithmetic
    on floats is done by this module. *)

Inductive Value :=
| VNone
| VBool (b : bool)
| VInt (z : Z)
| VFloat (bits : Z)
| VStr (s : str)
| VBytes (b : bytes)
| VList (l : list Value)
| VDict (d : list (str * Value)).

(** A Python [dict] with [str] keys, in insertion order. *)
Definition dict := list (str * Value).

Fixpoint dict_get (d : dict) (k : str) : option Value :=
  match d with
  | [] => None
  | (k', v) :: r => if String.eqb k' k then Some v else dict_get r k
  end.

(** Modelled from the spec: [meshcat/path.py] is not under [src/].  The
    spec, 3 and 4.1: a Path is an ordered sequence of string segments;
    [root(name)] is the Path with one segment; [append(path, segment)] is a
    new Path, the old segments followed by [segment], the original
    unchanged, no failure conditions. *)
Record Path := { segments : list str }.

Definition root (name : str) : Path := {| segments := [name] |}.

Definition append (p : Path) (segment : str) : Path :=
  {| segments := segments p ++ [segment] |}.

Fixpoint join (sep : str) (l : list str) : str :=
  match l with
  | [] => ""
  | [s] => s
  | s :: r => s +:+ sep +:+ join sep r
  end.

(** Modelled from the spec: how a Path is written on the wire is in
    [meshcat/path.py], not under [src/].  The spec, 6 and 8: the segments
    joined by a fixed delimiter, the path [["meshcat";"box"]] being sent as
    ["meshcat/box"]. *)
Definition Path_lower (p : Path) : str := join "/" (segments p).

Definition float64 := Z.
Definition f_zero : float64 := 0%Z.
Definition f_one : float64 := 0x3FF0000000000000%Z.

Definition Matrix := list (list float64).

(** [np.eye(n)]: ones on the diagonal, zeros elsewhere, as floats. *)
Definition eye (n : nat) : Matrix :=
  map (fun i => map (fun j => if Nat.eqb i j then f_one else f_zero) (seq 0 n))
      (seq 0 n).

(** Modelled from the spec: [meshcat/commands.py] is not under [src/].  The
    spec, 3: a Command is one of SetObject(geometry, optional material,
    target Path), SetTransform(4x4 matrix, target Path), Delete(target
    Path), SetAnimation(animation data, play flag, repetition count);
    geometry, material and animation are opaque serialisable payloads.  The
    constructors take their arguments in the order of the calls in
    [visualizer.py]. *)
Inductive Command :=
| SetObject (geometry : Value) (material : option Value) (path : Path)
| SetTransform (matrix : Matrix) (path : Path)
| Delete (path : Path)
| SetAnimation (animation : Value) (play : bool) (repetitions : Z).

(** Modelled from the spec: the kind tag of a command, spec 4.2 and 8 (a
    SetTransform is observed with kind ["set_transform"]); the other three
    tags follow the same spelling. *)
Definition kind (c : Command) : str :=
  match c with
  | SetObject _ _ _ => "set_object"
  | SetTransform _ _ => "set_transform"
  | Delete _ => "delete"
  | SetAnimation _ _ _ => "set_animation"
  end.

(** Modelled from the spec: the target Path of a command, spec 4.2.  A
    SetAnimation is constructed from no Path (spec 3, and the call in
    [Visualizer.set_animation]); its target is the Path of no segment. *)
Definition targetPath (c : Command) : Path :=
  match c with
  | SetObject _ _ p => p
  | SetTransform _ p => p
  | Delete p => p
  | SetAnimation _ _ _ => {| segments := [] |}
  end.

Definition lower_matrix (m : Matrix) : Value :=
  VList (map (fun row => VList (map VFloat row)) m).

Definition fields (c : Command) : dict :=
  match c with
  | SetObject g m _ =>
    [("geometry", g); ("material", match m with Some v => v | None => VNone end)]
  | SetTransform m _ => [("matrix", lower_matrix m)]
  | Delete _ => []
  | SetAnimation a p r =>
    [("animation", a); ("play", VBool p); ("repetitions", VInt r)]
  end.

(** Modelled from the spec: [Command.lower()], spec 4.2 ([encode]): a
    mapping of all the fields of the command, the kind and the path among
    them.  [ViewerWindow.send] reads the kind under ["type"] and the path
    under ["path"]; the other keys carry the names the spec gives the
    fields. *)
Definition lower (c : Command) : dict :=
  ("type", VStr (kind c)) :: ("path", VStr (Path_lower (targetPath c))) :: fields c.

(** ** The world *)

(** A ZeroMQ socket of type REQ: it is connected to an endpoint or not yet,
    and it alternates strictly between sending a request and receiving its
    reply. *)
Record Socket := {
  endpoint : option str;
  awaiting_reply : bool
}.

(** A process started by [subprocess.Popen] with its standard output on a
    pipe: what it has still to write on it, and whether it then closes it. *)
Record Process := {
  argv : list str;
  environ : list (str * str);
  stdout : bytes;
  stdout_closes : bool;
  alive : bool;
  reaped : bool
}.

(** The attributes of a [ViewerWindow]; [None] in [web_url] and
    [zmq_socket] is an attribute not yet set, [None] in [server_proc] and
    [zmq_url] is also Python's [None]. *)
Record ViewerWindow := {
  server_proc : option nat;
  zmq_url : option str;
  web_url : option str;
  zmq_socket : option nat
}.

(** The two slots of a [Visualizer]: the address of its window, its path. *)
Record Visualizer := {
  window : nat;
  path : Path
}.

Inductive Object :=
| OWindow (w : ViewerWindow)
| OVisualizer (v : Visualizer).

Inductive Event :=
| EvPopen (pid : nat) (args : list str) (env : list (str * str))
| EvReadline (pid : nat) (line : bytes)
| EvAtexit (self : nat)
| EvSocket (s : nat)
| EvConnect (s : nat) (url : str)
| EvSend (s : nat) (frames : list bytes)
| EvRecv (s : nat) (reply : bytes)
| EvPrint (text : str)
| EvBrowser (url : str).

Record World := {
  heap : list Object;
  sockets : list Socket;
  processes : list Process;
  atexit : list nat;
  trace : list Event;
  (* the environment *)
  sys_executable : str;
  module_file : str;
  server_banner : bytes;
  banner_closes : bool;
  endpoint_ok : str -> bool;
  replies : list bytes
}.

Definition with_heap (h : list Object) (w : World) : World :=
  {| heap := h; sockets := sockets w; processes := processes w;
     atexit := atexit w; trace := trace w;
     sys_executable := sys_executable w; module_file := module_file w;
     server_banner := server_banner w; banner_closes := banner_closes w;
     endpoint_ok := endpoint_ok w; replies := replies w |}.

Definition with_sockets (s : list Socket) (w : World) : World :=
  {| heap := heap w; sockets := s; processes := processes w;
     atexit := atexit w; trace := trace w;
     sys_executable := sys_executable w; module_file := module_file w;
     server_banner := server_banner w; banner_closes := banner_closes w;
     endpoint_ok := endpoint_ok w; replies := replies w |}.

Definition with_processes (p : list Process) (w : World) : World :=
  {| heap := heap w; sockets := sockets w; processes := p;
     atexit := atexit w; trace := trace w;
     sys_executable := sys_executable w; module_file := module_file w;
     server_banner := server_banner w; banner_closes := banner_closes w;
     endpoint_ok := endpoint_ok w; replies := replies w |}.

Definition with_atexit (a : list nat) (w : World) : World :=
  {| heap := heap w; sockets := sockets w; processes := processes w;
     atexit := a; trace := trace w;
     sys_executable := sys_executable w; module_file := module_file w;
     server_banner := server_banner w; banner_closes := banner_closes w;
     endpoint_ok := endpoint_ok w; replies := replies w |}.

Definition with_replies (r : list bytes) (w : World) : World :=
  {| heap := heap w; sockets := sockets w; processes := processes w;
     atexit := atexit w; trace := trace w;
     sys_executable := sys_executable w; module_file := module_file w;
     server_banner := server_banner w; banner_closes := banner_closes w;
     endpoint_ok := endpoint_ok w; replies := r |}.

Definition log (e : Event) (w : World) : World :=
  {| heap := heap w; sockets := sockets w; processes := processes w;
     atexit := atexit w; trace := trace w ++ [e];
     sys_executable := sys_executable w; module_file := module_file w;
     server_banner := server_banner w; banner_closes := banner_closes w;
     endpoint_ok := endpoint_ok w; replies := replies w |}.

(** ** The monad: state over the world, exceptions, and calls that never
    return *)

Inductive Outcome (A : Type) :=
| Return (a : A)
| Raise (e : Exception)
| Hang.
Arguments Return {A} a.
Arguments Raise {A} e.
Arguments Hang {A}.

Definition M (A : Type) : Type := World -> Outcome A * World.

Definition ret {A} (a : A) : M A := fun w => (Return a, w).

Definition bind {A B} (m : M A) (k : A -> M B) : M B :=
  fun w =>
    match m w with
    | (Return a, w') => k a w'
    | (Raise e, w') => (Raise e, w')
    | (Hang, w') => (Hang, w')
    end.

Definition raise {A} (e : Exception) : M A := fun w => (Raise e, w).
Definition hang {A} : M A := fun w => (Hang, w).
Definition get : M World := fun w => (Return w, w).
Definition modify (f : World -> World) : M unit := fun w => (Return tt, f w).

Declare Scope py_scope.
Delimit Scope py_scope with py.
Notation "x <- m ;; k" := (bind m (fun x => k))
  (at level 100, m at next level, right associativity) : py_scope.
Notation "m ;; k" := (bind m (fun _ => k))
  (at level 100, right associativity) : py_scope.
Open Scope py_scope.

Definition lift {A} (r : Exception + A) : M A :=
  match r with
  | inl e => raise e
  | inr a => ret a
  end.

(** ** The heap *)

Definition alloc (o : Object) : M nat :=
  fun w => (Return (length (heap w)), with_heap (heap w ++ [o]) w).

Definition store (a : nat) (o : Object) : M unit :=
  modify (fun w => with_heap (<[a := o]> (heap w)) w).

(** Reading an attribute of [ViewerWindow] from an object that is none
    raises [AttributeError], as it does from a window that has not set it. *)
Definition load_window (a : nat) : M ViewerWindow :=
  fun w =>
    match heap w !! a with
    | Some (OWindow x) => (Return x, w)
    | _ => (Raise (AttributeError "not a ViewerWindow"), w)
    end.

Definition load_visualizer (a : nat) : M Visualizer :=
  fun w =>
    match heap w !! a with
    | Some (OVisualizer v) => (Return v, w)
    | _ => (Raise (AttributeError "not a Visualizer"), w)
    end.

Definition blank : ViewerWindow :=
  {| server_proc := None; zmq_url := None; web_url := None; zmq_socket := None |}.

Definition set_server_proc (self : nat) (p : option nat) : M unit :=
  x <- load_window self ;;
  store self (OWindow {| server_proc := p; zmq_url := zmq_url x;
                         web_url := web_url x; zmq_socket := zmq_socket x |}).

Definition set_zmq_url (self : nat) (u : option str) : M unit :=
  x <- load_window self ;;
  store self (OWindow {| server_proc := server_proc x; zmq_url := u;
                         web_url := web_url x; zmq_socket := zmq_socket x |}).

Definition set_web_url (self : nat) (u : str) : M unit :=
  x <- load_window self ;;
  store self (OWindow {| server_proc := server_proc x; zmq_url := zmq_url x;
                         web_url := Some u; zmq_socket := zmq_socket x |}).

Definition set_zmq_socket (self : nat) (s : nat) : M unit :=
  x <- load_window self ;;
  store self (OWindow {| server_proc := server_proc x; zmq_url := zmq_url x;
                         web_url := web_url x; zmq_socket := Some s |}).

Definition get_web_url (self : nat) : M str :=
  x <- load_window self ;;
  match web_url x with
  | Some u => ret u
  | None => raise (AttributeError "web_url")
  end.

Definition get_zmq_socket (self : nat) : M nat :=
  x <- load_window self ;;
  match zmq_socket x with
  | Some s => ret s
  | None => raise (AttributeError "zmq_socket")
  end.

(** ** ZeroMQ, as the module uses it

    [context.socket(zmq.REQ)] makes a fresh socket; [connect] refuses an
    endpoint that is not a string or that the library cannot parse, and
    otherwise returns at once, the connection being made in the background.
    A REQ socket sends one request, a list of frames, then receives the one
    reply to it: sending twice in a row, or receiving with no request out,
    is an error of the library.  Sending through a socket that was never
    connected, and receiving when the peer does not answer, block for ever
    (no timeout is set by the module). *)

Definition context_socket : M nat :=
  fun w =>
    let s := length (sockets w) in
    (Return s,
     log (EvSocket s)
       (with_sockets (sockets w ++ [{| endpoint := None; awaiting_reply := false |}]) w)).

Definition socket_connect (s : nat) (url : option str) : M unit :=
  fun w =>
    match url with
    | None => (Raise (TypeError "expected str, got None"), w)
    | Some u =>
      match sockets w !! s with
      | None => (Raise (ZMQError "Socket operation on non-socket"), w)
      | Some sk =>
        if endpoint_ok w u then
          (Return tt,
           log (EvConnect s u)
             (with_sockets
                (<[s := {| endpoint := Some u; awaiting_reply := awaiting_reply sk |}]>
                   (sockets w)) w))
        else (Raise (ZMQError "Invalid argument"), w)
      end
    end.

Definition socket_send_multipart (s : nat) (msg_parts : list bytes) : M unit :=
  fun w =>
    match sockets w !! s with
    | None => (Raise (ZMQError "Socket operation on non-socket"), w)
    | Some sk =>
      if awaiting_reply sk then
        (Raise (ZMQError "Operation cannot be accomplished in current state"), w)
      else
        match endpoint sk with
        | None => (Hang, w)
        | Some u =>
          (Return tt,
           log (EvSend s msg_parts)
             (with_sockets
                (<[s := {| endpoint := Some u; awaiting_reply := true |}]> (sockets w)) w))
        end
    end.

(** [socket.send(data)]: a request of one frame. *)
Definition socket_send (s : nat) (data : bytes) : M unit :=
  socket_send_multipart s [data].

Definition socket_recv (s : nat) : M bytes :=
  fun w =>
    match sockets w !! s with
    | None => (Raise (ZMQError "Socket operation on non-socket"), w)
    | Some sk =>
      if awaiting_reply sk then
        match replies w with
        | [] => (Hang, w)
        | r :: rest =>
          (Return r,
           log (EvRecv s r)
             (with_replies rest
                (with_sockets
                   (<[s := {| endpoint := endpoint sk; awaiting_reply := false |}]>
                      (sockets w)) w)))
        end
      else
        (Raise (ZMQError "Operation cannot be accomplished in current state"), w)
    end.

(** ** [subprocess], [atexit], [print], [webbrowser], [os.path] *)

Definition Popen (args : list str) (env : list (str * str)) : M nat :=
  fun w =>
    let pid := length (processes w) in
    (Return pid,
     log (EvPopen pid args env)
       (with_processes
          (processes w ++
           [{| argv := args; environ := env; stdout := server_banner w;
               stdout_closes := banner_closes w; alive := true; reaped := false |}])
          w)).

(** The first line of [b], its line feed included, and what follows it. *)
Fixpoint split_line (b : bytes) : option (bytes * bytes) :=
  match b with
  | [] => None
  | c :: r =>
    if Byte.eqb c NL then Some ([c], r)
    else match split_line r with
         | Some (l, r') => Some (c :: l, r')
         | None => None
         end
  end.

Definition set_stdout (out : bytes) (p : Process) : Process :=
  {| argv := argv p; environ := environ p; stdout := out;
     stdout_closes := stdout_closes p; alive := alive p; reaped := reaped p |}.

(** [proc.stdout.readline()]: a line through its line feed; at the end of
    the output, what is left of it (possibly nothing) once the process has
    closed the pipe, and no return while it keeps it open. *)
Definition stdout_readline (pid : nat) : M bytes :=
  fun w =>
    match processes w !! pid with
    | None => (Raise (AttributeError "stdout"), w)
    | Some p =>
      match split_line (stdout p) with
      | Some (line, rest) =>
        (Return line,
         log (EvReadline pid line)
           (with_processes (<[pid := set_stdout rest p]> (processes w)) w))
      | None =>
        if stdout_closes p then
          (Return (stdout p),
           log (EvReadline pid (stdout p))
             (with_processes (<[pid := set_stdout [] p]> (processes w)) w))
        else (Hang, w)
      end
    end.

Definition proc_kill (pid : nat) : M unit :=
  fun w =>
    match processes w !! pid with
    | None => (Raise (AttributeError "kill"), w)
    | Some p =>
      (Return tt,
       with_processes
         (<[pid := {| argv := argv p; environ := environ p; stdout := stdout p;
                      stdout_closes := stdout_closes p; alive := false;
                      reaped := reaped p |}]> (processes w)) w)
    end.

Definition proc_wait (pid : nat) : M unit :=
  fun w =>
    match processes w !! pid with
    | None => (Raise (AttributeError "wait"), w)
    | Some p =>
      if alive p then (Hang, w)
      else
        (Return tt,
         with_processes
           (<[pid := {| argv := argv p; environ := environ p; stdout := stdout p;
                        stdout_closes := stdout_closes p; alive := false;
                        reaped := true |}]> (processes w)) w)
    end.

Definition atexit_register (self : nat) : M unit :=
  modify (fun w => log (EvAtexit self) (with_atexit (atexit w ++ [self]) w)).

Definition print (text : str) : M unit := modify (log (EvPrint text)).

Definition webbrowser_open (url : str) : M unit := modify (log (EvBrowser url)).

Definition slash : ascii := "/"%char.

Fixpoint drop_slashes (l : list ascii) : list ascii :=
  match l with
  | [] => []
  | c :: r => if Ascii.eqb c slash then drop_slashes r else l
  end.

Fixpoint drop_to_slash (l : list ascii) : list ascii :=
  match l with
  | [] => []
  | c :: r => if Ascii.eqb c slash then l else drop_to_slash r
  end.

(** [posixpath.dirname]: the path up to its last slash, the trailing slashes
    of that head dropped unless it is made of slashes only. *)
Definition dirname (p : str) : str :=
  let head := drop_to_slash (rev (list_ascii_of_string p)) in
  match drop_slashes head with
  | [] => string_of_list_ascii (rev head)
  | stripped => string_of_list_ascii (rev stripped)
  end.

Definition decode (b : bytes) : M str :=
  match decode_utf8 b with
  | Some s => ret s
  | None => raise UnicodeDecodeError
  end.

(** ** class ViewerWindow *)

Definition b_url : bytes := encode_utf8 "url".
Definition b_wait : bytes := encode_utf8 "wait".
Definition b_get_scene : bytes := encode_utf8 "get_scene".

Definition connect_zmq (self : nat) : M unit :=
  s <- context_socket ;;
  set_zmq_socket self s ;;
  x <- load_window self ;;
  socket_connect s (zmq_url x).

Definition request_web_url (self : nat) : M str :=
  s <- get_zmq_socket self ;;
  socket_send s b_url ;;
  s' <- get_zmq_socket self ;;
  r <- socket_recv s' ;;
  response <- decode r ;;
  ret response.

Definition ViewerWindow_open (self : nat) : M nat :=
  u <- get_web_url self ;;
  webbrowser_open u ;;
  ret self.

Definition ViewerWindow_wait (self : nat) : M str :=
  s <- get_zmq_socket self ;;
  socket_send s b_wait ;;
  s' <- get_zmq_socket self ;;
  r <- socket_recv s' ;;
  decode r.

Definition get_scene (self : nat) : M str :=
  s <- get_zmq_socket self ;;
  socket_send s b_get_scene ;;
  s' <- get_zmq_socket self ;;
  r <- socket_recv s' ;;
  decode r.

(** The closure [cleanup] of [__init__], run at interpreter exit. *)
Definition cleanup (self : nat) : M unit :=
  x <- load_window self ;;
  match server_proc x with
  | None => raise (AttributeError "kill")
  | Some p => proc_kill p ;; proc_wait p
  end.

Definition ViewerWindow_init (self : nat)
    (zmq_url : option str) (start_server : bool) (args : list str) : M unit :=
  (if start_server then
     w <- get ;;
     let args := [sys_executable w; "-u"; "-m"; "meshcat.servers.zmqserver"] ++ args in
     let args := match zmq_url with
                 | Some u => args ++ ["--zmq-url"; u]
                 | None => args
                 end in
     let env := [("PYTHONPATH", dirname (dirname (module_file w)))] in
     p <- Popen args env ;;
     set_server_proc self (Some p) ;;
     l1 <- stdout_readline p ;;
     s1 <- decode (strip l1) ;;
     u1 <- lift (match_zmq_url s1) ;;
     set_zmq_url self (Some u1) ;;
     l2 <- stdout_readline p ;;
     s2 <- decode (strip l2) ;;
     u2 <- lift (match_web_url s2) ;;
     set_web_url self u2 ;;
     atexit_register self
   else
     set_server_proc self None ;;
     set_zmq_url self zmq_url) ;;
  connect_zmq self ;;
  (if negb start_server then
     u <- request_web_url self ;;
     set_web_url self u ;;
     connect_zmq self
   else ret tt) ;;
  print "You can open the visualizer by visiting the following URL:" ;;
  u <- get_web_url self ;;
  print u.

(** [ViewerWindow(zmq_url=..., start_server=..., args=...)]: a new object,
    then [__init__] on it. *)
Definition ViewerWindow_new
    (zmq_url : option str) (start_server : bool) (args : list str) : M nat :=
  self <- alloc (OWindow blank) ;;
  ViewerWindow_init self zmq_url start_server args ;;
  ret self.

(** A call with positional arguments only, as the entry point makes it.
    [__init__] has three parameters after [self]; any other number of
    arguments is a [TypeError] of the call itself, raised before the body
    runs.  The arguments are then taken at the types the body uses them at:
    [zmq_url] a string or [None], [start_server] by its truth value, [args]
    a list of strings. *)
Inductive PyArg :=
| ANone
| ABool (b : bool)
| AStr (s : str)
| AList (l : list str).

Definition truth (a : PyArg) : bool :=
  match a with
  | ANone => false
  | ABool b => b
  | AStr s => negb (String.eqb s "")
  | AList l => match l with [] => false | _ => true end
  end.

Definition ViewerWindow_call (positional : list PyArg) : M nat :=
  self <- alloc (OWindow blank) ;;
  match positional with
  | [a1; a2; a3] =>
    match a1, a3 with
    | ANone, AList l => ViewerWindow_init self None (truth a2) l ;; ret self
    | AStr u, AList l => ViewerWindow_init self (Some u) (truth a2) l ;; ret self
    | _, _ => raise (TypeError "argument of the wrong type")
    end
  | _ => raise (TypeError "__init__() takes 4 positional arguments")
  end.

(** ** The entry point, [if __name__ == '__main__'] *)

Definition idle_loop {A} : M A := hang.

Definition main (sys_argv : list str) : M Empty_set :=
  let args := [] in
  let '(zmq_url, args) :=
    if Nat.ltb 1 (length sys_argv) then
      (match sys_argv !! 1%nat with Some u => AStr u | None => ANone end,
       if Nat.ltb 2 (length sys_argv) then drop 2 sys_argv else args)
    else (ANone, args) in
  window <- ViewerWindow_call
              [zmq_url;
               ABool (match zmq_url with ANone => true | _ => false end);
               ABool true;
               AList args] ;;
  idle_loop.

(** What the name of an attribute finds on a [ViewerWindow]: the names
    bound in the class body and the attributes [__init__] and
    [connect_zmq] set on the instance. *)
Inductive Attribute :=
| class_context
| method_init
| method_connect_zmq
| method_request_web_url
| method_open
| method_wait
| method_send
| method_get_scene
| field_server_proc
| field_zmq_url
| field_web_url
| field_zmq_socket.

Definition ViewerWindow_dict : list (str * Attribute) :=
  [("context", class_context);
   ("__init__", method_init);
   ("connect_zmq", method_connect_zmq);
   ("request_web_url", method_request_web_url);
   ("open", method_open);
   ("wait", method_wait);
   ("send", method_send);
   ("get_scene", method_get_scene);
   ("server_proc", field_server_proc);
   ("zmq_url", field_zmq_url);
   ("web_url", field_web_url);
   ("zmq_socket", field_zmq_socket)].

Fixpoint assoc {A} (l : list (str * A)) (k : str) : option A :=
  match l with
  | [] => None
  | (k', a) :: r => if String.eqb k' k then Some a else assoc r k
  end.

(** [getattr(window, name)()]: the attribute called with no argument, its
    result dropped. *)
Definition call_no_argument (self : nat) (a : Attribute) : M unit :=
  match a with
  | method_connect_zmq => connect_zmq self
  | method_request_web_url => request_web_url self ;; ret tt
  | method_open => ViewerWindow_open self ;; ret tt
  | method_wait => ViewerWindow_wait self ;; ret tt
  | method_get_scene => get_scene self ;; ret tt
  | method_init | method_send => raise (TypeError "missing required positional argument")
  | _ => raise (TypeError "object is not callable")
  end.

Definition call_method (self : nat) (name : str) : M unit :=
  load_window self ;;
  match assoc ViewerWindow_dict name with
  | None =>
    raise (AttributeError ("'ViewerWindow' object has no attribute '" +:+ name +:+ "'"))
  | Some a => call_no_argument self a
  end.

(** ** srcdoc_escape and the two HTML templates *)

Definition dq : ascii := ascii_of_nat 34.
Definition quoted (s : str) : str := String dq s +:+ String dq "".
Definition nl : str := String newline "".

Fixpoint replace_char (c : ascii) (new : str) (x : str) : str :=
  match x with
  | EmptyString => EmptyString
  | String a r =>
    if Ascii.eqb a c then new +:+ replace_char c new r
    else String a (replace_char c new r)
  end.

Definition srcdoc_escape (x : str) : str :=
  replace_char dq "&quot;" (replace_char "&"%char "&amp;" x).

Record HTML := { data : str }.

Definition box_style : str :=
  "height: 400px; width: 100%; overflow-x: auto; overflow-y: hidden; resize: both".
Definition frame_style : str := "width: 100%; height: 100%; border: none".

Definition cell_html (indent attribute value : str) : str :=
  nl +:+ indent +:+ "<div style=" +:+ quoted box_style +:+ ">" +:+
  nl +:+ indent +:+ "<iframe " +:+ attribute +:+ "=" +:+ quoted value +:+
    " style=" +:+ quoted frame_style +:+ "></iframe>" +:+
  nl +:+ indent +:+ "</div>" +:+
  nl +:+ indent.

(** ** class Visualizer *)

Section Wire.

(** [umsgpack.packb]: the serialiser of the message body, a library
    function; [None] is its [UnsupportedTypeException]. *)
Variable packb : Value -> option bytes.

Definition getitem (d : dict) (k : str) : M Value :=
  match dict_get d k with
  | Some v => ret v
  | None => raise (KeyError k)
  end.

(** [v.encode("utf-8")]: only a [str] has the method. *)
Definition encode (v : Value) : M bytes :=
  match v with
  | VStr s => ret (encode_utf8 s)
  | _ => raise (AttributeError "encode")
  end.

Definition pack (v : Value) : M bytes :=
  match packb v with
  | Some b => ret b
  | None => raise UnsupportedTypeException
  end.

Definition send (self : nat) (command : Command) : M unit :=
  let cmd_data := lower command in
  s <- get_zmq_socket self ;;
  ty <- getitem cmd_data "type" ;;
  kind_part <- encode ty ;;
  pa <- getitem cmd_data "path" ;;
  path_part <- encode pa ;;
  body <- pack (VDict cmd_data) ;;
  socket_send_multipart s [kind_part; path_part; body] ;;
  s' <- get_zmq_socket self ;;
  socket_recv s' ;;
  ret tt.

Definition Visualizer_init
    (zmq_url : option str) (window : option nat) (args : list str) : M nat :=
  win <- match window with
         | None =>
           ViewerWindow_new zmq_url
             (match zmq_url with None => true | Some _ => false end) args
         | Some win => ret win
         end ;;
  alloc (OVisualizer {| window := win; path := {| segments := ["meshcat"] |} |}).

Definition set_path (vis : nat) (p : Path) : M unit :=
  v <- load_visualizer vis ;;
  store vis (OVisualizer {| window := window v; path := p |}).

Definition view_into (window : nat) (path : Path) : M nat :=
  vis <- Visualizer_init None (Some window) [] ;;
  set_path vis path ;;
  ret vis.

Definition Visualizer_open (self : nat) : M nat :=
  v <- load_visualizer self ;;
  ViewerWindow_open (window v) ;;
  ret self.

Definition url (self : nat) : M str :=
  v <- load_visualizer self ;;
  get_web_url (window v).

Definition Visualizer_wait (self : nat) : M str :=
  v <- load_visualizer self ;;
  ViewerWindow_wait (window v).

Definition static_html (self : nat) : M str :=
  v <- load_visualizer self ;;
  get_scene (window v).

Definition jupyter_cell (self : nat) : M HTML :=
  u <- url self ;;
  ret {| data := cell_html "            " "src" u |}.

Definition render_static (self : nat) : M HTML :=
  doc <- static_html self ;;
  ret {| data := cell_html "        " "srcdoc" (srcdoc_escape doc) |}.

(** [__getitem__]; the parameter, [path] in the source, is the segment. *)
Definition Visualizer_getitem (self : nat) (segment : str) : M nat :=
  v <- load_visualizer self ;;
  view_into (window v) (append (path v) segment).

Definition set_object (self : nat) (geometry : Value) (material : option Value) : M unit :=
  v <- load_visualizer self ;;
  send (window v) (SetObject geometry material (path v)).

(** [matrix=np.eye(4)]: [None] is the argument left out. *)
Definition set_transform (self : nat) (matrix : option Matrix) : M unit :=
  let matrix := match matrix with Some m => m | None => eye 4 end in
  v <- load_visualizer self ;;
  send (window v) (SetTransform matrix (path v)).

(** [play=True, repetitions=1]: [None] is the argument left out. *)
Definition set_animation (self : nat) (animation : Value)
    (play : option bool) (repetitions : option Z) : M unit :=
  let play := match play with Some b => b | None => true end in
  let repetitions := match repetitions with Some n => n | None => 1%Z end in
  v <- load_visualizer self ;;
  send (window v) (SetAnimation animation play repetitions).

Definition Visualizer_delete (self : nat) : M unit :=
  v <- load_visualizer self ;;
  send (window v) (Delete (path v)).

Definition close (self : nat) : M unit :=
  v <- load_visualizer self ;;
  call_method (window v) "close".

End Wire.

(** * The vocabulary of the properties *)

(** The events a run has added to the trace. *)
Definition new_events (w w' : World) : list Event :=
  drop (length (trace w)) (trace w').

(** A window whose socket is connected and has no request out. *)
Definition ready (w : World) (self s : nat) : Prop :=
  exists x u,
    heap w !! self = Some (OWindow x) /\ zmq_socket x = Some s /\
    sockets w !! s = Some {| endpoint := Some u; awaiting_reply := false |}.

(** The world after one request and its reply on socket [s]. *)
Definition exchanged (s : nat) (request : list bytes) (w : World) : World :=
  match replies w with
  | [] => w
  | r :: rest => with_replies rest (log (EvRecv s r) (log (EvSend s request) w))
  end.

(** What [recv().decode("utf-8")] hands back for the reply [r]. *)
Definition decoded (r : bytes) : Outcome str :=
  match decode_utf8 r with
  | Some t => Return t
  | None => Raise UnicodeDecodeError
  end.

(** The three frames of the request [send] makes for [c]. *)
Definition request_of (c : Command) (body : bytes) : list bytes :=
  [encode_utf8 (kind c); encode_utf8 (Path_lower (targetPath c)); body].

(** ** The views already made are never touched

    No call of the two classes writes to a [Visualizer] that exists: the
    window setters write to windows, and [view_into] writes the path of the
    view it has just made. *)

Definition stable (w w' : World) : Prop :=
  forall v vis, heap w !! v = Some (OVisualizer vis) ->
                heap w' !! v = Some (OVisualizer vis).

Definition preserves {A} (m : M A) : Prop :=
  forall w out w', m w = (out, w') -> stable w w'.

(** ** The calls a program can make on a view *)

Inductive Call :=
| call_open
| call_url
| call_wait
| call_jupyter_cell
| call_render_static
| call_getitem (segment : str)
| call_set_object (geometry : Value) (material : option Value)
| call_set_transform (matrix : option Matrix)
| call_set_animation (animation : Value) (play : option bool) (repetitions : option Z)
| call_delete
| call_close
| call_static_html.

Section Calls.

Variable packb : Value -> option bytes.

(** The call [c] on the object at [self]; its result is dropped. *)
Definition perform (c : Call) (self : nat) : M unit :=
  match c with
  | call_open => Visualizer_open self ;; ret tt
  | call_url => url self ;; ret tt
  | call_wait => Visualizer_wait self ;; ret tt
  | call_jupyter_cell => jupyter_cell self ;; ret tt
  | call_render_static => render_static self ;; ret tt
  | call_getitem segment => Visualizer_getitem self segment ;; ret tt
  | call_set_object g m => set_object packb self g m
  | call_set_transform m => set_transform packb self m
  | call_set_animation a p n => set_animation packb self a p n
  | call_delete => Visualizer_delete packb self
  | call_close => close self
  | call_static_html => static_html self ;; ret tt
  end.

(** [derived v0 w0 v w]: from the view [v0] in the world [w0], a program
    reaches the view [v] in the world [w] by child accesses, with any
    calls, on any object and whatever their outcome, in between. *)
Inductive derived (v0 : nat) (w0 : World) : nat -> World -> Prop :=
| derived_here : derived v0 w0 v0 w0
| derived_child v w segment v' w' :
    derived v0 w0 v w ->
    Visualizer_getitem v segment w = (Return v', w') ->
    derived v0 w0 v' w'
| derived_call v w c u out w' :
    derived v0 w0 v w ->
    perform c u w = (out, w') ->
    derived v0 w0 v w'.

End Calls.

(** The path of the view at [v] starts with the segment "meshcat". *)
Definition meshcat_rooted (w : World) (v : nat) : Prop :=
  exists vis rest,
    heap w !! v = Some (OVisualizer vis) /\
    segments (path vis) = "meshcat" :: rest.

Definition banner_line : str := "You can open the visualizer by visiting the following URL:".

(** The command line and the environment of the spawned server. *)
Definition spawn_args (w : World) (zmq_url : option str) (args : list str) : list str :=
  [sys_executable w; "-u"; "-m"; "meshcat.servers.zmqserver"] ++ args ++
  match zmq_url with Some u => ["--zmq-url"; u] | None => [] end.

Definition spawn_env (w : World) : list (str * str) :=
  [("PYTHONPATH", dirname (dirname (module_file w)))].

(** ** What the claims speak of *)

(** The 4x4 identity matrix, written out. *)
Definition identity4 : Matrix :=
  [[f_one; f_zero; f_zero; f_zero];
   [f_zero; f_one; f_zero; f_zero];
   [f_zero; f_zero; f_one; f_zero];
   [f_zero; f_zero; f_zero; f_one]].

(** Every request that the call [op] puts on the wire from the world [w]
    has the path [p], joined and encoded, as its second frame. *)
Definition carries_path (p : Path) (op : M unit) (w : World) : Prop :=
  forall out w' s parts,
    op w = (out, w') ->
    In (EvSend s parts) (new_events w w') ->
    parts !! 1%nat = Some (encode_utf8 (Path_lower p)).

(** ** Worlds to run the program in *)

(** A serialiser for the runs below: every body is the same five octets. *)
Definition example_packb (v : Value) : option bytes := Some (encode_utf8 "body").

(** Nothing started yet; a server, if one is spawned, prints [banner] and
    keeps its output open; the peer will answer with [answers]; the library
    accepts any endpoint but the empty one. *)
Definition boot (banner : str) (answers : list str) : World :=
  {| heap := []; sockets := []; processes := []; atexit := []; trace := [];
     sys_executable := "/usr/bin/python3";
     module_file := "/srv/app/meshcat/visualizer.py";
     server_banner := encode_utf8 banner;
     banner_closes := false;
     endpoint_ok := fun u => negb (String.eqb u "");
     replies := map encode_utf8 answers |}.

Definition good_banner : str :=
  "zmq_url=tcp://127.0.0.1:6000" +:+ nl +:+
  "web_url=http://127.0.0.1:7000/static/" +:+ nl.

(** After [Visualizer(zmq_url="tcp://127.0.0.1:6000")]: the window at
    address 0, the view at address 1. *)
Definition attached : World :=
  Eval vm_compute in
    snd (Visualizer_init (Some "tcp://127.0.0.1:6000") None []
           (boot "" ["http://127.0.0.1:7000/static/"; "ok"; "fine"])).

(** After [Visualizer()]: the server is process 0, the window is at
    address 0, the view at address 1. *)
Definition spawned : World :=
  Eval vm_compute in
    snd (Visualizer_init None None [] (boot good_banner ["ok"; "fine"])).

Definition meshcat : Path := {| segments := ["meshcat"] |}.

(** ** More vocabulary: the parser *)

(** A line feed occurs in [s]. *)
Fixpoint has_newline (s : string) : bool :=
  match s with
  | EmptyString => false
  | String c r => Ascii.eqb c newline || has_newline r
  end.

(** ** More vocabulary: the escaped document *)

(** What a reader of the attribute makes of an escaped text: the entity of
    the ampersand and the entity of the quote are read back, any other
    character is taken as it is. *)
Fixpoint srcdoc_unescape (s : string) : string :=
  match s with
  | EmptyString => EmptyString
  | String "&" (String "a" (String "m" (String "p" (String ";" r)))) =>
    String "&" (srcdoc_unescape r)
  | String "&" (String "q" (String "u" (String "o" (String "t" (String ";" r))))) =>
    String dq (srcdoc_unescape r)
  | String a r => String a (srcdoc_unescape r)
  end.

(** The character [c] occurs in [s]. *)
Fixpoint occurs (c : ascii) (s : string) : bool :=
  match s with
  | EmptyString => false
  | String a r => Ascii.eqb a c || occurs c r
  end.

(** ** More vocabulary: sequences of requests *)

(** The three requests of one frame that a window makes. *)
Inductive Request :=
| req_url
| req_wait
| req_get_scene.

Definition frame_of (q : Request) : bytes :=
  match q with
  | req_url => b_url
  | req_wait => b_wait
  | req_get_scene => b_get_scene
  end.

Definition issue (self : nat) (q : Request) : M str :=
  match q with
  | req_url => request_web_url self
  | req_wait => ViewerWindow_wait self
  | req_get_scene => get_scene self
  end.

(** The requests [qs] made one after the other on the window [self]. *)
Fixpoint issue_all (self : nat) (qs : list Request) : M (list str) :=
  match qs with
  | [] => ret []
  | q :: qs' =>
    t <- issue self q ;;
    ts <- issue_all self qs' ;;
    ret (t :: ts)
  end.

(** The events of the exchanges of [qs], answered by [rs], on socket [s]. *)
Fixpoint exchanges (s : nat) (qs : list Request) (rs : list bytes) : list Event :=
  match qs, rs with
  | q :: qs', r :: rs' => EvSend s [frame_of q] :: EvRecv s r :: exchanges s qs' rs'
  | _, _ => []
  end.

(** The socket [s] has a request out. *)
Definition awaiting (w : World) (s : nat) : Prop :=
  exists u, sockets w !! s = Some {| endpoint := Some u; awaiting_reply := true |}.

(** ** More vocabulary: counting characters *)

Fixpoint count_char (c : ascii) (s : string) : nat :=
  match s with
  | EmptyString => 0
  | String a r => (if Ascii.eqb a c then 1 else 0) + count_char c r
  end.

(** The call [m] leaves the world as it finds it, whatever its outcome. *)
Definition leaves_world {A} (m : M A) : Prop :=
  forall w out w', m w = (out, w') -> w' = w.

(** ** More vocabulary: what a call leaves in place *)

(** Every run of [m] takes a world to one that [R] relates to it. *)
Definition respects (R : World -> World -> Prop) {A} (m : M A) : Prop :=
  forall w out w', m w = (out, w') -> R w w'.

(** The trace has only grown, and the processes that were alive are alive,
    with their command line and their environment. *)
Definition lasting (w w' : World) : Prop :=
  (exists evs, trace w' = trace w ++ evs) /\
  (forall pid p, processes w !! pid = Some p -> alive p = true ->
     exists p', processes w' !! pid = Some p' /\
                argv p' = argv p /\ environ p' = environ p /\ alive p' = true).

(** * Properties *)

(** ** The handshake parser and the helpers, run *)

Example match_zmq_url_ok :
  match_zmq_url "zmq_url=tcp://127.0.0.1:9000" = inr "tcp://127.0.0.1:9000".
Proof. reflexivity. Qed.

Example match_web_url_garbage :
  match_web_url "garbage" =
  inl (ValueError "Could not match garbage with pattern ^web_url=(.*)$").
Proof. reflexivity. Qed.

Example strip_line :
  decode_utf8 (strip (encode_utf8 ("  web_url=http://h:1/" +:+ String newline "")))
  = Some "web_url=http://h:1/".
Proof. vm_compute. reflexivity. Qed.

Example dirname_module :
  dirname (dirname "/opt/site/meshcat/visualizer.py") = "/opt/site".
Proof. reflexivity. Qed.

Example dirname_root : dirname "/meshcat" = "/".
Proof. reflexivity. Qed.

(** ** Running the monad *)

Lemma bind_return {A B} (m : M A) (k : A -> M B) w a w' :
  m w = (Return a, w') -> bind m k w = k a w'.
Proof. unfold bind. intros ->. reflexivity. Qed.

Lemma bind_raise {A B} (m : M A) (k : A -> M B) w e w' :
  m w = (Raise e, w') -> bind m k w = (Raise e, w').
Proof. unfold bind. intros ->. reflexivity. Qed.

Lemma bind_hang {A B} (m : M A) (k : A -> M B) w w' :
  m w = (Hang, w') -> bind m k w = (Hang, w').
Proof. unfold bind. intros ->. reflexivity. Qed.

Lemma new_events_log w evs :
  new_events w (fold_left (fun w e => log e w) evs w) = evs.
Proof.
  unfold new_events.
  assert (H : forall evs w0, trace (fold_left (fun w e => log e w) evs w0) = trace w0 ++ evs).
  { clear. induction evs as [|e evs IH]; intros w0; simpl.
    - symmetry. apply app_nil_r.
    - rewrite IH. simpl. rewrite <- app_assoc. reflexivity. }
  rewrite H. apply drop_app_length.
Qed.

(** ** The heap and the sockets *)

Lemma lookup_snoc {A} (l : list A) x : (l ++ [x]) !! length l = Some x.
Proof. apply list_lookup_middle. reflexivity. Qed.

Lemma insert_snoc {A} (l : list A) x y : <[length l := y]> (l ++ [x]) = l ++ [y].
Proof.
  replace (length l) with (length l + 0) by apply Nat.add_0_r.
  exact (insert_app_r l [x] 0 y).
Qed.

Lemma load_window_ok w self x :
  heap w !! self = Some (OWindow x) -> load_window self w = (Return x, w).
Proof. unfold load_window. intros ->. reflexivity. Qed.

Lemma load_visualizer_ok w self v :
  heap w !! self = Some (OVisualizer v) -> load_visualizer self w = (Return v, w).
Proof. unfold load_visualizer. intros ->. reflexivity. Qed.

Lemma get_zmq_socket_ok w self x s :
  heap w !! self = Some (OWindow x) -> zmq_socket x = Some s ->
  get_zmq_socket self w = (Return s, w).
Proof.
  intros Hx Hs. unfold get_zmq_socket.
  rewrite (bind_return _ _ _ _ _ (load_window_ok _ _ _ Hx)), Hs. reflexivity.
Qed.

Lemma get_web_url_ok w self x u :
  heap w !! self = Some (OWindow x) -> web_url x = Some u ->
  get_web_url self w = (Return u, w).
Proof.
  intros Hx Hu. unfold get_web_url.
  rewrite (bind_return _ _ _ _ _ (load_window_ok _ _ _ Hx)), Hu. reflexivity.
Qed.

Lemma socket_round_trip w s u request r rest :
  sockets w !! s = Some {| endpoint := Some u; awaiting_reply := false |} ->
  replies w = r :: rest ->
  exists w1,
    socket_send_multipart s request w = (Return tt, w1) /\
    heap w1 = heap w /\
    socket_recv s w1 = (Return r, exchanged s request w).
Proof.
  intros Hs Hr. eexists. split; [|split].
  - unfold socket_send_multipart. rewrite Hs. simpl. reflexivity.
  - reflexivity.
  - unfold socket_recv, exchanged. simpl.
    rewrite list_lookup_insert_eq by (eapply lookup_lt_Some; eassumption).
    simpl. rewrite Hr. rewrite list_insert_insert_eq.
    rewrite (list_insert_id _ _ _ Hs). destruct w; reflexivity.
Qed.

Lemma exchanged_spec w s request r rest :
  replies w = r :: rest ->
  heap (exchanged s request w) = heap w /\
  sockets (exchanged s request w) = sockets w /\
  processes (exchanged s request w) = processes w /\
  replies (exchanged s request w) = rest /\
  new_events w (exchanged s request w) = [EvSend s request; EvRecv s r].
Proof.
  intros Hr. unfold exchanged, new_events. rewrite Hr. simpl.
  repeat split; try reflexivity.
  rewrite <- app_assoc. apply drop_app_length.
Qed.

Ltac run H := rewrite (bind_return _ _ _ _ _ H).

Lemma decode_decoded r w : decode r w = (decoded r, w).
Proof. unfold decode, decoded. destruct (decode_utf8 r); reflexivity. Qed.

(** One request of the frames [request] through the socket of the window,
    then the reply: the shape shared by the four calls of the window. *)
Lemma window_round_trip {A} (k : bytes -> M A) w self s request r rest :
  ready w self s ->
  replies w = r :: rest ->
  (s0 <- get_zmq_socket self ;;
   socket_send_multipart s0 request ;;
   s1 <- get_zmq_socket self ;;
   reply <- socket_recv s1 ;;
   k reply) w
  = k r (exchanged s request w).
Proof.
  intros (x & u & Hx & Hs & Hsk) Hr.
  destruct (socket_round_trip w s u request r rest Hsk Hr) as (w1 & Hsend & Hheap & Hrecv).
  run (get_zmq_socket_ok w self x s Hx Hs).
  run Hsend.
  assert (Hx1 : heap w1 !! self = Some (OWindow x)) by (rewrite Hheap; exact Hx).
  run (get_zmq_socket_ok w1 self x s Hx1 Hs).
  run Hrecv. reflexivity.
Qed.

Lemma request_web_url_ready w self s r rest :
  ready w self s -> replies w = r :: rest ->
  request_web_url self w = (decoded r, exchanged s [encode_utf8 "url"] w).
Proof.
  intros Hready Hr. unfold request_web_url, socket_send, b_url.
  rewrite (window_round_trip _ w self s _ r rest Hready Hr).
  unfold bind. rewrite decode_decoded. unfold decoded.
  destruct (decode_utf8 r); reflexivity.
Qed.

Lemma wait_ready w self s r rest :
  ready w self s -> replies w = r :: rest ->
  ViewerWindow_wait self w = (decoded r, exchanged s [encode_utf8 "wait"] w).
Proof.
  intros Hready Hr. unfold ViewerWindow_wait, socket_send, b_wait.
  rewrite (window_round_trip _ w self s _ r rest Hready Hr).
  apply decode_decoded.
Qed.

Lemma get_scene_ready w self s r rest :
  ready w self s -> replies w = r :: rest ->
  get_scene self w = (decoded r, exchanged s [encode_utf8 "get_scene"] w).
Proof.
  intros Hready Hr. unfold get_scene, socket_send, b_get_scene.
  rewrite (window_round_trip _ w self s _ r rest Hready Hr).
  apply decode_decoded.
Qed.

Lemma new_events_same w : new_events w w = [].
Proof. unfold new_events. apply drop_all. Qed.

Ltac events :=
  unfold new_events; simpl;
  rewrite <- ?app_assoc, ?drop_app_length, ?drop_all; simpl.

Section WireProperties.

Variable packb : Value -> option bytes.

Lemma lower_type c : dict_get (lower c) "type" = Some (VStr (kind c)).
Proof. reflexivity. Qed.

Lemma lower_path c :
  dict_get (lower c) "path" = Some (VStr (Path_lower (targetPath c))).
Proof. reflexivity. Qed.

Lemma send_ready w self s c body r rest :
  ready w self s ->
  packb (VDict (lower c)) = Some body ->
  replies w = r :: rest ->
  send packb self c w = (Return tt, exchanged s (request_of c body) w).
Proof.
  intros (x & u & Hx & Hs & Hsk) Hbody Hr.
  destruct (socket_round_trip w s u (request_of c body) r rest Hsk Hr)
    as (w1 & Hsend & Hheap & Hrecv).
  unfold send.
  run (get_zmq_socket_ok w self x s Hx Hs).
  assert (Hty : getitem (lower c) "type" w = (Return (VStr (kind c)), w)) by reflexivity.
  run Hty.
  assert (Hk : encode (VStr (kind c)) w = (Return (encode_utf8 (kind c)), w)) by reflexivity.
  run Hk.
  assert (Hpa : getitem (lower c) "path" w
                = (Return (VStr (Path_lower (targetPath c))), w)) by reflexivity.
  run Hpa.
  assert (Hp : encode (VStr (Path_lower (targetPath c))) w
               = (Return (encode_utf8 (Path_lower (targetPath c))), w)) by reflexivity.
  run Hp.
  assert (Hb : pack packb (VDict (lower c)) w = (Return body, w))
    by (unfold pack; rewrite Hbody; reflexivity).
  run Hb.
  run Hsend.
  assert (Hx1 : heap w1 !! self = Some (OWindow x)) by (rewrite Hheap; exact Hx).
  run (get_zmq_socket_ok w1 self x s Hx1 Hs).
  run Hrecv. reflexivity.
Qed.

(** Whatever the state of the window and of the peer, a request that
    [send] puts on the wire for [c] is made of the three frames of [c]. *)
Lemma send_sends w self c out w' :
  send packb self c w = (out, w') ->
  heap w' = heap w /\
  forall s parts, In (EvSend s parts) (new_events w w') ->
    exists body, packb (VDict (lower c)) = Some body /\ parts = request_of c body.
Proof.
  unfold send, bind, get_zmq_socket, load_window, getitem, encode, pack,
    socket_send_multipart, socket_recv, ret, raise, bind.
  rewrite lower_type, lower_path.
  intros H.
  repeat case_match; simplify_eq.
  all: split; [reflexivity|]; events; intros s' parts Hin.
  all: repeat (destruct Hin as [Hin|Hin]; [|]); try contradiction; try discriminate.
  all: injection Hin as <- <-; eexists; split; reflexivity.
Qed.

(** C5: for every command [c], on a window whose socket is connected and
    idle, [send] transmits exactly one request of three frames, in order
    the kind tag as UTF-8, the target path joined by the delimiter as UTF-8,
    and the serialised lowered command, which holds the kind under "type"
    and the path under "path"; it then receives exactly one reply and
    returns nothing of it. *)
Theorem send_transmits_one_request w self s c body r rest :
  ready w self s ->
  packb (VDict (lower c)) = Some body ->
  replies w = r :: rest ->
  exists w',
    send packb self c w = (Return tt, w') /\
    new_events w w' =
      [EvSend s [encode_utf8 (kind c);
                 encode_utf8 (join "/" (segments (targetPath c)));
                 body];
       EvRecv s r] /\
    replies w' = rest /\
    dict_get (lower c) "type" = Some (VStr (kind c)) /\
    dict_get (lower c) "path" = Some (VStr (join "/" (segments (targetPath c)))).
Proof.
  intros Hready Hbody Hr.
  exists (exchanged s (request_of c body) w).
  destruct (exchanged_spec w s (request_of c body) r rest Hr) as (_ & _ & _ & Hrest & Hev).
  split; [apply (send_ready w self s c body r rest Hready Hbody Hr)|].
  split; [exact Hev|]. split; [exact Hrest|]. split; reflexivity.
Qed.

End WireProperties.

(** C8: on a window whose socket is connected and idle, the URL query, the
    wait and the scene query each send one request of the single frame
    "url", "wait", "get_scene", receive one reply frame, decode it as UTF-8
    and return the decoded string (a reply that is not UTF-8 raises
    UnicodeDecodeError). *)
Theorem bare_requests w self s r rest :
  ready w self s ->
  replies w = r :: rest ->
  (exists w', request_web_url self w = (decoded r, w') /\
     new_events w w' = [EvSend s [encode_utf8 "url"]; EvRecv s r]) /\
  (exists w', ViewerWindow_wait self w = (decoded r, w') /\
     new_events w w' = [EvSend s [encode_utf8 "wait"]; EvRecv s r]) /\
  (exists w', get_scene self w = (decoded r, w') /\
     new_events w w' = [EvSend s [encode_utf8 "get_scene"]; EvRecv s r]) /\
  (forall t, decode_utf8 r = Some t -> decoded r = Return t).
Proof.
  intros Hready Hr.
  split; [|split; [|split]].
  - eexists. split; [apply (request_web_url_ready w self s r rest Hready Hr)|].
    apply (exchanged_spec w s _ r rest Hr).
  - eexists. split; [apply (wait_ready w self s r rest Hready Hr)|].
    apply (exchanged_spec w s _ r rest Hr).
  - eexists. split; [apply (get_scene_ready w self s r rest Hready Hr)|].
    apply (exchanged_spec w s _ r rest Hr).
  - intros t Ht. unfold decoded. rewrite Ht. reflexivity.
Qed.

Lemma stable_refl w : stable w w.
Proof. intros v vis H. exact H. Qed.

Lemma stable_trans w1 w2 w3 : stable w1 w2 -> stable w2 w3 -> stable w1 w3.
Proof. intros H12 H23 v vis H. apply H23, H12, H. Qed.

Lemma stable_same_heap w w' : heap w' = heap w -> stable w w'.
Proof. intros Hh v vis H. rewrite Hh. exact H. Qed.

Lemma preserves_bind {A B} (m : M A) (k : A -> M B) :
  preserves m -> (forall a, preserves (k a)) -> preserves (bind m k).
Proof.
  intros Hm Hk w out w'. unfold bind.
  destruct (m w) as [[a|e|] w1] eqn:E; intros H.
  - eapply stable_trans; [eapply Hm, E | eapply Hk, H].
  - injection H as <- <-. eapply Hm, E.
  - injection H as <- <-. eapply Hm, E.
Qed.

Lemma preserves_ret {A} (a : A) : preserves (ret a).
Proof. intros w out w' [= <- <-]. apply stable_refl. Qed.

Lemma preserves_raise {A} e : preserves (@raise A e).
Proof. intros w out w' [= <- <-]. apply stable_refl. Qed.

Lemma preserves_hang {A} : preserves (@hang A).
Proof. intros w out w' [= <- <-]. apply stable_refl. Qed.

Lemma preserves_get : preserves get.
Proof. intros w out w' [= <- <-]. apply stable_refl. Qed.

Lemma preserves_lift {A} (r : Exception + A) : preserves (lift r).
Proof. destruct r; [apply preserves_raise | apply preserves_ret]. Qed.

Lemma preserves_load_window a : preserves (load_window a).
Proof.
  intros w out w'. unfold load_window.
  repeat case_match; intros [= <- <-]; apply stable_refl.
Qed.

Lemma preserves_load_visualizer a : preserves (load_visualizer a).
Proof.
  intros w out w'. unfold load_visualizer.
  repeat case_match; intros [= <- <-]; apply stable_refl.
Qed.

Lemma preserves_alloc o : preserves (alloc o).
Proof.
  intros w out w' [= <- <-] v vis H. simpl.
  apply lookup_app_l_Some. exact H.
Qed.

Ltac same_heap :=
  let w := fresh "w" in let out := fresh "out" in let w' := fresh "w'" in
  intros w out w';
  repeat case_match; intros [= <- <-];
  apply stable_same_heap; reflexivity.

Lemma preserves_setter self (f : ViewerWindow -> ViewerWindow) :
  preserves (x <- load_window self ;; store self (OWindow (f x))).
Proof.
  intros w out w'. unfold bind, load_window, store, modify.
  destruct (heap w !! self) as [[y|y]|] eqn:E; intros [= <- <-];
    try apply stable_refl.
  intros v vis H. simpl.
  rewrite list_lookup_insert_ne; [exact H|].
  intros ->. rewrite E in H. discriminate.
Qed.

Lemma preserves_set_server_proc self p : preserves (set_server_proc self p).
Proof.
  exact (preserves_setter self (fun x =>
    {| server_proc := p; zmq_url := zmq_url x; web_url := web_url x;
       zmq_socket := zmq_socket x |})).
Qed.

Lemma preserves_set_zmq_url self u : preserves (set_zmq_url self u).
Proof.
  exact (preserves_setter self (fun x =>
    {| server_proc := server_proc x; zmq_url := u; web_url := web_url x;
       zmq_socket := zmq_socket x |})).
Qed.

Lemma preserves_set_web_url self u : preserves (set_web_url self u).
Proof.
  exact (preserves_setter self (fun x =>
    {| server_proc := server_proc x; zmq_url := zmq_url x; web_url := Some u;
       zmq_socket := zmq_socket x |})).
Qed.

Lemma preserves_set_zmq_socket self s : preserves (set_zmq_socket self s).
Proof.
  exact (preserves_setter self (fun x =>
    {| server_proc := server_proc x; zmq_url := zmq_url x; web_url := web_url x;
       zmq_socket := Some s |})).
Qed.

Lemma preserves_context_socket : preserves context_socket.
Proof. unfold context_socket. same_heap. Qed.

Lemma preserves_socket_connect s u : preserves (socket_connect s u).
Proof. unfold socket_connect. same_heap. Qed.

Lemma preserves_socket_send_multipart s parts :
  preserves (socket_send_multipart s parts).
Proof. unfold socket_send_multipart. same_heap. Qed.

Lemma preserves_socket_send s data : preserves (socket_send s data).
Proof. apply preserves_socket_send_multipart. Qed.

Lemma preserves_socket_recv s : preserves (socket_recv s).
Proof. unfold socket_recv. same_heap. Qed.

Lemma preserves_Popen args env : preserves (Popen args env).
Proof. unfold Popen. same_heap. Qed.

Lemma preserves_stdout_readline p : preserves (stdout_readline p).
Proof. unfold stdout_readline. same_heap. Qed.

Lemma preserves_atexit_register self : preserves (atexit_register self).
Proof. unfold atexit_register, modify. same_heap. Qed.

Lemma preserves_print t : preserves (print t).
Proof. unfold print, modify. same_heap. Qed.

Lemma preserves_webbrowser_open u : preserves (webbrowser_open u).
Proof. unfold webbrowser_open, modify. same_heap. Qed.

Lemma preserves_decode b : preserves (decode b).
Proof. unfold decode. destruct (decode_utf8 b); [apply preserves_ret | apply preserves_raise]. Qed.

Create HintDb frame.
#[export] Hint Resolve preserves_ret preserves_raise preserves_hang preserves_get
  preserves_lift preserves_load_window preserves_load_visualizer preserves_alloc
  preserves_set_server_proc preserves_set_zmq_url preserves_set_web_url
  preserves_set_zmq_socket preserves_context_socket preserves_socket_connect
  preserves_socket_send_multipart preserves_socket_send preserves_socket_recv
  preserves_Popen preserves_stdout_readline preserves_atexit_register
  preserves_print preserves_webbrowser_open preserves_decode : frame.

(** A sequence of calls preserves the views when each of them does. *)
Ltac frame :=
  repeat first
    [ solve [auto with frame]
    | apply preserves_bind; [|intros ?]
    | match goal with
      | |- preserves (match ?x with _ => _ end) => destruct x
      | |- preserves (if ?b then _ else _) => destruct b
      end ].

Lemma preserves_get_zmq_socket self : preserves (get_zmq_socket self).
Proof. unfold get_zmq_socket. frame. Qed.

Lemma preserves_get_web_url self : preserves (get_web_url self).
Proof. unfold get_web_url. frame. Qed.

#[export] Hint Resolve preserves_get_zmq_socket preserves_get_web_url : frame.

Lemma preserves_connect_zmq self : preserves (connect_zmq self).
Proof. unfold connect_zmq. frame. Qed.

Lemma preserves_request_web_url self : preserves (request_web_url self).
Proof. unfold request_web_url. frame. Qed.

Lemma preserves_ViewerWindow_open self : preserves (ViewerWindow_open self).
Proof. unfold ViewerWindow_open. frame. Qed.

Lemma preserves_ViewerWindow_wait self : preserves (ViewerWindow_wait self).
Proof. unfold ViewerWindow_wait. frame. Qed.

Lemma preserves_get_scene self : preserves (get_scene self).
Proof. unfold get_scene. frame. Qed.

#[export] Hint Resolve preserves_connect_zmq preserves_request_web_url
  preserves_ViewerWindow_open preserves_ViewerWindow_wait preserves_get_scene : frame.

Lemma preserves_ViewerWindow_init self zmq_url start_server args :
  preserves (ViewerWindow_init self zmq_url start_server args).
Proof. unfold ViewerWindow_init. frame. Qed.

#[export] Hint Resolve preserves_ViewerWindow_init : frame.

Lemma preserves_ViewerWindow_new zmq_url start_server args :
  preserves (ViewerWindow_new zmq_url start_server args).
Proof. unfold ViewerWindow_new. frame. Qed.

Lemma preserves_call_method self name : preserves (call_method self name).
Proof. unfold call_method, call_no_argument. frame. Qed.

#[export] Hint Resolve preserves_ViewerWindow_new preserves_call_method : frame.

(** ** Running a call on a world given by its fields *)

Ltac norm :=
  cbv beta iota zeta delta
    [ViewerWindow_new ViewerWindow_init connect_zmq request_web_url
     set_server_proc set_zmq_url set_web_url set_zmq_socket get_zmq_socket get_web_url
     load_window load_visualizer store alloc context_socket socket_connect socket_send
     socket_send_multipart socket_recv decode print modify bind ret raise hang get lift
     Popen stdout_readline atexit_register set_stdout negb
     Visualizer_init view_into set_path Visualizer_getitem
     with_heap with_sockets with_processes with_atexit with_replies log
     heap sockets processes atexit trace sys_executable module_file server_banner
     banner_closes endpoint_ok replies
     zmq_url zmq_socket web_url server_proc endpoint awaiting_reply blank b_url
     window path stdout stdout_closes argv environ alive reaped].

Ltac exec := repeat (norm; rewrite ?lookup_snoc, ?insert_snoc).

Lemma view_into_spec w win p :
  view_into win p w =
  (Return (length (heap w)),
   with_heap (heap w ++ [OVisualizer {| window := win; path := p |}]) w).
Proof. destruct w. exec. reflexivity. Qed.

Lemma Visualizer_getitem_spec w self vis segment :
  heap w !! self = Some (OVisualizer vis) ->
  Visualizer_getitem self segment w =
  (Return (length (heap w)),
   with_heap
     (heap w ++ [OVisualizer {| window := window vis;
                                path := append (path vis) segment |}]) w).
Proof.
  intros H. unfold Visualizer_getitem.
  run (load_visualizer_ok w self vis H). apply view_into_spec.
Qed.

Lemma preserves_view_into win p : preserves (view_into win p).
Proof.
  intros w out w'. rewrite view_into_spec. intros [= <- <-] v vis H.
  simpl. apply lookup_app_l_Some. exact H.
Qed.

Lemma preserves_Visualizer_getitem self segment :
  preserves (Visualizer_getitem self segment).
Proof.
  unfold Visualizer_getitem. apply preserves_bind; [auto with frame|].
  intros v. apply preserves_view_into.
Qed.

Lemma preserves_Visualizer_init zmq_url win args :
  preserves (Visualizer_init zmq_url win args).
Proof. unfold Visualizer_init. frame. Qed.

Lemma preserves_Visualizer_open self : preserves (Visualizer_open self).
Proof. unfold Visualizer_open. frame. Qed.

Lemma preserves_url self : preserves (url self).
Proof. unfold url. frame. Qed.

Lemma preserves_Visualizer_wait self : preserves (Visualizer_wait self).
Proof. unfold Visualizer_wait. frame. Qed.

Lemma preserves_static_html self : preserves (static_html self).
Proof. unfold static_html. frame. Qed.

#[export] Hint Resolve preserves_view_into preserves_Visualizer_getitem
  preserves_Visualizer_init preserves_Visualizer_open preserves_url
  preserves_Visualizer_wait preserves_static_html : frame.

Lemma preserves_jupyter_cell self : preserves (jupyter_cell self).
Proof. unfold jupyter_cell. frame. Qed.

Lemma preserves_render_static self : preserves (render_static self).
Proof. unfold render_static. frame. Qed.

Lemma preserves_close self : preserves (close self).
Proof. unfold close. frame. Qed.

#[export] Hint Resolve preserves_jupyter_cell preserves_render_static
  preserves_close : frame.

Section ViewProperties.

Variable packb : Value -> option bytes.

Lemma preserves_send self c : preserves (send packb self c).
Proof.
  intros w out w' H. apply stable_same_heap.
  apply (send_sends packb w self c out w' H).
Qed.

Hint Resolve preserves_send : frame.

Lemma preserves_set_object self g m : preserves (set_object packb self g m).
Proof. unfold set_object. frame. Qed.

Lemma preserves_set_transform self m : preserves (set_transform packb self m).
Proof. unfold set_transform. frame. Qed.

Lemma preserves_set_animation self a p n :
  preserves (set_animation packb self a p n).
Proof. unfold set_animation. frame. Qed.

Lemma preserves_Visualizer_delete self : preserves (Visualizer_delete packb self).
Proof. unfold Visualizer_delete. frame. Qed.

End ViewProperties.

Section Invariant.

Variable packb : Value -> option bytes.

Lemma preserves_perform c u : preserves (perform packb c u).
Proof.
  destruct c; unfold perform;
    auto using preserves_set_object, preserves_set_transform,
               preserves_set_animation, preserves_Visualizer_delete with frame;
    frame.
Qed.

Lemma Visualizer_init_spec zmq_url win args w v0 w0 :
  Visualizer_init zmq_url win args w = (Return v0, w0) ->
  exists win', heap w0 !! v0 =
    Some (OVisualizer {| window := win'; path := {| segments := ["meshcat"] |} |}).
Proof.
  unfold Visualizer_init, bind, alloc. intros H.
  repeat case_match; simplify_eq; eexists; simpl; apply lookup_snoc.
Qed.

Lemma child_rooted w v segment v' w' :
  meshcat_rooted w v ->
  Visualizer_getitem v segment w = (Return v', w') ->
  meshcat_rooted w' v'.
Proof.
  intros (vis & rest & Hv & Hp) H.
  rewrite (Visualizer_getitem_spec w v vis segment Hv) in H.
  injection H as <- <-.
  eexists; exists (rest ++ [segment]). split.
  - simpl. apply lookup_snoc.
  - simpl. rewrite Hp. reflexivity.
Qed.

Lemma stable_rooted w w' v : stable w w' -> meshcat_rooted w v -> meshcat_rooted w' v.
Proof.
  intros Hs (vis & rest & Hv & Hp). exists vis, rest. split; [apply Hs, Hv | exact Hp].
Qed.

(** C9: a Visualizer made by the constructor has the path of the single
    segment "meshcat"; every view reached from it by child accesses, with
    any calls of the class in between, has a path that starts with
    "meshcat": no call changes the path of a view that exists. *)
Theorem constructor_roots_at_meshcat zmq_url win args w v0 w0 :
  Visualizer_init zmq_url win args w = (Return v0, w0) ->
  (exists win', heap w0 !! v0 =
     Some (OVisualizer {| window := win'; path := {| segments := ["meshcat"] |} |})) /\
  (forall v w', derived packb v0 w0 v w' -> meshcat_rooted w' v) /\
  (forall c u w1 out w2 v vis,
     perform packb c u w1 = (out, w2) ->
     heap w1 !! v = Some (OVisualizer vis) ->
     heap w2 !! v = Some (OVisualizer vis)).
Proof.
  intros Hinit.
  destruct (Visualizer_init_spec _ _ _ _ _ _ Hinit) as (win' & Hv0).
  split; [exists win'; exact Hv0|]. split.
  - intros v w' Hd. induction Hd as [|v1 w1 segment v' w' _ IH Hget|v1 w1 c u out w' _ IH Hc].
    + eexists; exists []. split; [exact Hv0 | reflexivity].
    + eapply child_rooted; eassumption.
    + eapply stable_rooted; [eapply preserves_perform, Hc | exact IH].
  - intros c u w1 out w2 v vis Hc Hv.
    exact (preserves_perform c u w1 out w2 Hc v vis Hv).
Qed.

(** C7: for a view [v] and two different segments, the two children are
    new views over the window of [v], their paths are the path of [v]
    extended by the one and by the other segment, so they differ, and [v]
    keeps its window and its path. *)
Theorem children_share_window_and_extend_path w v vis a b :
  heap w !! v = Some (OVisualizer vis) ->
  a <> b ->
  exists va w1 vb w2,
    Visualizer_getitem v a w = (Return va, w1) /\
    Visualizer_getitem v b w1 = (Return vb, w2) /\
    heap w2 !! va =
      Some (OVisualizer {| window := window vis; path := append (path vis) a |}) /\
    heap w2 !! vb =
      Some (OVisualizer {| window := window vis; path := append (path vis) b |}) /\
    segments (append (path vis) a) = segments (path vis) ++ [a] /\
    segments (append (path vis) b) = segments (path vis) ++ [b] /\
    append (path vis) a <> append (path vis) b /\
    heap w2 !! v = Some (OVisualizer vis) /\
    va <> v /\ vb <> v /\ va <> vb /\
    sockets w2 = sockets w /\ processes w2 = processes w /\ trace w2 = trace w.
Proof.
  intros Hv Hab.
  pose proof (Visualizer_getitem_spec w v vis a Hv) as H1.
  set (w1 := with_heap (heap w ++ [OVisualizer {| window := window vis;
                                                 path := append (path vis) a |}]) w) in *.
  assert (Hv1 : heap w1 !! v = Some (OVisualizer vis))
    by (simpl; apply lookup_app_l_Some; exact Hv).
  pose proof (Visualizer_getitem_spec w1 v vis b Hv1) as H2.
  pose proof (lookup_lt_Some _ _ _ Hv) as Hlt.
  eexists _, w1, _, _. split; [exact H1|]. split; [exact H2|].
  simpl. rewrite length_app. simpl.
  repeat split; try reflexivity; try lia.
  - apply lookup_app_l_Some. apply lookup_snoc.
  - replace (length (heap w) + 1) with
      (length (heap w ++ [OVisualizer {| window := window vis;
                                         path := append (path vis) a |}]))
      by (rewrite length_app; reflexivity).
    apply lookup_snoc.
  - intros Heq. apply Hab.
    assert (Hs : segments (append (path vis) a) = segments (append (path vis) b))
      by (rewrite Heq; reflexivity).
    simpl in Hs. apply app_inv_head in Hs. congruence.
  - apply lookup_app_l_Some, lookup_app_l_Some. exact Hv.
Qed.

End Invariant.

Lemma lookup_snoc2 {A} (l : list A) x y : (l ++ [x; y]) !! S (length l) = Some y.
Proof.
  rewrite lookup_app_r by lia.
  replace (S (length l) - length l) with 1 by lia. reflexivity.
Qed.

(** C6: in attach mode (an endpoint given, no server to start), with an
    endpoint the library accepts and a peer that answers the URL query with
    UTF-8 text, the construction of the window does, in this order: a
    socket connected to the endpoint, the request "url" and its reply, kept
    as the public URL, then one new socket connected to the same endpoint,
    which is the socket of the window when the constructor returns, idle,
    for every later command. *)
Theorem attach_reconnects w url args r rest web :
  endpoint_ok w url = true -> replies w = r :: rest -> decode_utf8 r = Some web ->
  let self := length (heap w) in
  let s0 := length (sockets w) in
  let s1 := S s0 in
  exists w',
    ViewerWindow_new (Some url) false args w = (Return self, w') /\
    new_events w w' =
      [EvSocket s0; EvConnect s0 url; EvSend s0 [encode_utf8 "url"]; EvRecv s0 r;
       EvSocket s1; EvConnect s1 url; EvPrint banner_line; EvPrint web] /\
    heap w' = heap w ++ [OWindow {| server_proc := None; zmq_url := Some url;
                                    web_url := Some web; zmq_socket := Some s1 |}] /\
    sockets w' = sockets w ++ [{| endpoint := Some url; awaiting_reply := false |};
                               {| endpoint := Some url; awaiting_reply := false |}] /\
    processes w' = processes w /\ replies w' = rest /\ ready w' self s1.
Proof.
  intros Hok Hr Hweb. destruct w as [h sk ps ax tr exe file ban bc ok rs]. simpl in *. subst rs.
  eexists. split.
  - repeat (exec; rewrite ?Hok, ?Hweb). reflexivity.
  - rewrite !length_app. simpl length. rewrite !Nat.add_1_r.
    split; [events; reflexivity|].
    split; [reflexivity|].
    split; [simpl; rewrite <- app_assoc; reflexivity|].
    split; [reflexivity|]. split; [reflexivity|].
    eexists _, url. simpl. split; [apply lookup_snoc|]. split; [reflexivity|].
    rewrite <- app_assoc. apply lookup_snoc2.
Qed.

Lemma capture_error p s err : capture p s = inl err -> exists msg, err = ValueError msg.
Proof. unfold capture. destruct (re_match p s); intros [= <-]. eexists. reflexivity. Qed.

(** C4: in spawn mode the window reads the first line of the standard
    output of the server and matches it against the pattern of the
    endpoint; when it matches, it reads the second line and matches it
    against the pattern of the public URL; the two groups are the endpoint
    and the public URL of the window, and two lines have been read.  When
    either line does not match, the construction raises the ValueError of
    [capture] (the handshake error of the specification) and no socket has
    been created. *)
Theorem spawn_handshake w zmq_url args l1 rest1 s1 :
  split_line (server_banner w) = Some (l1, rest1) ->
  decode_utf8 (strip l1) = Some s1 ->
  let self := length (heap w) in
  let pid := length (processes w) in
  let s := length (sockets w) in
  let started := EvPopen pid (spawn_args w zmq_url args) (spawn_env w) in
  (forall err, match_zmq_url s1 = inl err ->
     exists msg w',
       ViewerWindow_new zmq_url true args w = (Raise (ValueError msg), w') /\
       err = ValueError msg /\
       new_events w w' = [started; EvReadline pid l1] /\
       sockets w' = sockets w) /\
  (forall e l2 rest2 s2,
     match_zmq_url s1 = inr e ->
     split_line rest1 = Some (l2, rest2) ->
     decode_utf8 (strip l2) = Some s2 ->
     (forall err, match_web_url s2 = inl err ->
        exists msg w',
          ViewerWindow_new zmq_url true args w = (Raise (ValueError msg), w') /\
          err = ValueError msg /\
          new_events w w' = [started; EvReadline pid l1; EvReadline pid l2] /\
          sockets w' = sockets w) /\
     (forall u, match_web_url s2 = inr u -> endpoint_ok w e = true ->
        exists w',
          ViewerWindow_new zmq_url true args w = (Return self, w') /\
          new_events w w' =
            [started; EvReadline pid l1; EvReadline pid l2; EvAtexit self;
             EvSocket s; EvConnect s e; EvPrint banner_line; EvPrint u] /\
          heap w' = heap w ++ [OWindow {| server_proc := Some pid; zmq_url := Some e;
                                          web_url := Some u; zmq_socket := Some s |}] /\
          ready w' self s)).
Proof.
  intros Hl1 Hs1. destruct w as [h sk ps ax tr exe file ban bc ok rs]. simpl in *.
  split.
  - intros err Herr. destruct (capture_error _ _ _ Herr) as (msg & ->).
    exists msg. eexists. split.
    + repeat (exec; rewrite ?Hl1, ?Hs1, ?Herr). reflexivity.
    + split; [reflexivity|]. split; [|reflexivity].
      events. unfold spawn_args. destruct zmq_url; simpl; rewrite ?app_nil_r; reflexivity.
  - intros e l2 rest2 s2 He Hl2 Hs2. split.
    + intros err Herr. destruct (capture_error _ _ _ Herr) as (msg & ->).
      exists msg. eexists. split.
      * repeat (exec; rewrite ?Hl1, ?Hs1, ?He, ?Hl2, ?Hs2, ?Herr). reflexivity.
      * split; [reflexivity|]. split; [|reflexivity].
        events. unfold spawn_args. destruct zmq_url; simpl; rewrite ?app_nil_r; reflexivity.
    + intros u Hu Hok. eexists. split.
      * repeat (exec; rewrite ?Hl1, ?Hs1, ?He, ?Hl2, ?Hs2, ?Hu, ?Hok). reflexivity.
      * split.
        { events. unfold spawn_args. destruct zmq_url; simpl; rewrite ?app_nil_r; reflexivity. }
        split; [reflexivity|].
        eexists _, e. simpl. split; [apply lookup_snoc|]. split; [reflexivity|].
        apply lookup_snoc.
Qed.

Example attached_view :
  heap attached !! 1%nat = Some (OVisualizer {| window := 0; path := meshcat |})
  /\ ready attached 0 1.
Proof.
  split; [reflexivity|].
  eexists _, _. repeat split; reflexivity.
Qed.

Example spawned_view :
  heap spawned !! 1%nat = Some (OVisualizer {| window := 0; path := meshcat |})
  /\ ready spawned 0 0.
Proof.
  split; [reflexivity|].
  eexists _, _. repeat split; reflexivity.
Qed.

Section Mutations.

Variable packb : Value -> option bytes.

Lemma send_carries_path w self c :
  carries_path (targetPath c) (send packb self c) w.
Proof.
  intros out w' s parts H Hin.
  destruct (send_sends packb w self c out w' H) as (_ & Hparts).
  destruct (Hparts s parts Hin) as (body & _ & ->). reflexivity.
Qed.

Lemma set_object_forwards w self vis g m :
  heap w !! self = Some (OVisualizer vis) ->
  set_object packb self g m w = send packb (window vis) (SetObject g m (path vis)) w.
Proof. intros H. unfold set_object. run (load_visualizer_ok w self vis H). reflexivity. Qed.

Lemma set_transform_forwards w self vis mx :
  heap w !! self = Some (OVisualizer vis) ->
  set_transform packb self mx w =
  send packb (window vis)
    (SetTransform (match mx with Some m => m | None => eye 4 end) (path vis)) w.
Proof. intros H. unfold set_transform. run (load_visualizer_ok w self vis H). reflexivity. Qed.

Lemma delete_forwards w self vis :
  heap w !! self = Some (OVisualizer vis) ->
  Visualizer_delete packb self w = send packb (window vis) (Delete (path vis)) w.
Proof. intros H. unfold Visualizer_delete. run (load_visualizer_ok w self vis H). reflexivity. Qed.

Lemma set_animation_forwards w self vis a p n :
  heap w !! self = Some (OVisualizer vis) ->
  set_animation packb self a p n w =
  send packb (window vis)
    (SetAnimation a (match p with Some b => b | None => true end)
                    (match n with Some k => k | None => 1%Z end)) w.
Proof. intros H. unfold set_animation. run (load_visualizer_ok w self vis H). reflexivity. Qed.

(** C1, as the code has it: for every view, [set_object], [set_transform]
    and [delete] build their command with the path of the view as its
    target and hand it to [send] of the window of the view, so that every
    request they put on the wire carries that path; [set_animation] builds
    its command from the animation, the play flag and the repetition count
    only and hands it to [send] of the window: what it sends is the same
    from every view over that window. *)
Theorem mutations_forward_to_send w self vis :
  heap w !! self = Some (OVisualizer vis) ->
  (forall g m,
     set_object packb self g m w =
       send packb (window vis) (SetObject g m (path vis)) w /\
     carries_path (path vis) (set_object packb self g m) w) /\
  (forall mx,
     set_transform packb self (Some mx) w =
       send packb (window vis) (SetTransform mx (path vis)) w /\
     carries_path (path vis) (set_transform packb self (Some mx)) w) /\
  (Visualizer_delete packb self w = send packb (window vis) (Delete (path vis)) w /\
   carries_path (path vis) (Visualizer_delete packb self) w) /\
  (forall a p n,
     set_animation packb self a (Some p) (Some n) w =
       send packb (window vis) (SetAnimation a p n) w) /\
  (forall other vis' a p n,
     heap w !! other = Some (OVisualizer vis') ->
     window vis' = window vis ->
     set_animation packb other a p n w = set_animation packb self a p n w).
Proof.
  intros H.
  split; [intros g m; split|].
  { apply set_object_forwards, H. }
  { intros out w' s parts. rewrite (set_object_forwards w self vis g m H).
    apply (send_carries_path w (window vis) (SetObject g m (path vis))). }
  split; [intros mx; split|].
  { apply (set_transform_forwards w self vis (Some mx) H). }
  { intros out w' s parts. rewrite (set_transform_forwards w self vis (Some mx) H).
    apply (send_carries_path w (window vis) (SetTransform mx (path vis))). }
  split; [split|].
  { apply delete_forwards, H. }
  { intros out w' s parts. rewrite (delete_forwards w self vis H).
    apply (send_carries_path w (window vis) (Delete (path vis))). }
  split.
  { intros a p n. apply (set_animation_forwards w self vis a (Some p) (Some n) H). }
  intros other vis' a p n H' Hw.
  rewrite (set_animation_forwards w other vis' a p n H'),
          (set_animation_forwards w self vis a p n H), Hw.
  reflexivity.
Qed.

(** C10: [set_transform] with the matrix left out sends, through the
    window of the view, the SetTransform command of the 4x4 identity
    matrix with the path of the view as its target: on a window whose
    socket is connected and idle, one request whose frames are the kind
    "set_transform", the path of the view and the serialised command. *)
Theorem set_transform_default_is_identity w self vis s body r rest :
  heap w !! self = Some (OVisualizer vis) ->
  ready w (window vis) s ->
  packb (VDict (lower (SetTransform identity4 (path vis)))) = Some body ->
  replies w = r :: rest ->
  eye 4 = identity4 /\
  set_transform packb self None w =
    send packb (window vis) (SetTransform identity4 (path vis)) w /\
  dict_get (lower (SetTransform identity4 (path vis))) "matrix" =
    Some (lower_matrix identity4) /\
  exists w',
    set_transform packb self None w = (Return tt, w') /\
    new_events w w' =
      [EvSend s [encode_utf8 "set_transform";
                 encode_utf8 (Path_lower (path vis));
                 body];
       EvRecv s r].
Proof.
  intros H Hready Hbody Hr.
  split; [reflexivity|].
  split; [apply (set_transform_forwards w self vis None H)|].
  split; [reflexivity|].
  rewrite (set_transform_forwards w self vis None H).
  destruct (send_transmits_one_request packb w (window vis) s
              (SetTransform identity4 (path vis)) body r rest Hready Hbody Hr)
    as (w' & Hsend & Hev & _).
  exists w'. split; [exact Hsend | exact Hev].
Qed.

End Mutations.

(** C1, as it is stated, fails for [set_animation]: over the view at the
    path "meshcat", the request it sends has the empty path as its second
    frame. *)
Lemma set_animation_carries_no_path :
  heap attached !! 1%nat = Some (OVisualizer {| window := 0; path := meshcat |}) /\
  ~ carries_path meshcat (set_animation example_packb 1 VNone None None) attached.
Proof.
  split; [reflexivity|]. intros H.
  set (run := set_animation example_packb 1 VNone None None attached).
  specialize (H (fst run) (snd run) 1
                [encode_utf8 "set_animation"; encode_utf8 ""; encode_utf8 "body"]).
  assert (Hrun : set_animation example_packb 1 VNone None None attached
                 = (fst run, snd run)) by (subst run; vm_compute; reflexivity).
  assert (Hin : In (EvSend 1 [encode_utf8 "set_animation"; encode_utf8 ""; encode_utf8 "body"])
                   (new_events attached (snd run)))
    by (vm_compute; left; reflexivity).
  specialize (H Hrun Hin). vm_compute in H. discriminate H.
Qed.

(** ** close and the entry point *)

Lemma close_raises w self vis x :
  heap w !! self = Some (OVisualizer vis) ->
  heap w !! window vis = Some (OWindow x) ->
  close self w =
  (Raise (AttributeError "'ViewerWindow' object has no attribute 'close'"), w).
Proof.
  intros Hv Hx. unfold close. run (load_visualizer_ok w self vis Hv).
  unfold call_method. run (load_window_ok w (window vis) x Hx). reflexivity.
Qed.

(** C2, at the failing input: on the view of a window that has spawned its
    server, [close] raises AttributeError, the class of the window having
    no method of that name, and the world is as before: the server process
    is still alive. *)
Theorem close_leaves_server_running :
  heap spawned !! 1%nat = Some (OVisualizer {| window := 0; path := meshcat |}) /\
  (exists x p, heap spawned !! 0%nat = Some (OWindow x) /\
               server_proc x = Some 0 /\
               processes spawned !! 0%nat = Some p /\ alive p = true) /\
  assoc ViewerWindow_dict "close" = None /\
  close 1 spawned =
    (Raise (AttributeError "'ViewerWindow' object has no attribute 'close'"), spawned).
Proof.
  split; [reflexivity|]. split; [eexists _, _; repeat split; reflexivity|].
  split; [reflexivity|].
  eapply close_raises; reflexivity.
Qed.

(** C3, at every input: whatever the command line, the entry point calls
    the class with four positional arguments where [__init__] takes three,
    so the construction raises TypeError: no server is started, no socket
    is made, nothing is printed, and the idle loop is never reached. *)
Theorem main_raises_TypeError sys_argv w :
  exists w',
    main sys_argv w = (Raise (TypeError "__init__() takes 4 positional arguments"), w') /\
    new_events w w' = [] /\
    processes w' = processes w /\
    sockets w' = sockets w.
Proof.
  unfold main. destruct (Nat.ltb 1 (length sys_argv));
    eexists; (split; [reflexivity|]);
    (split; [unfold new_events; simpl; apply drop_all|]); split; reflexivity.
Qed.

(** ** The theorems at work *)

Lemma send_transmits_one_request_witness :
  ready attached 0 1 /\
  exists w',
    send example_packb 0 (Delete meshcat) attached = (Return tt, w') /\
    new_events attached w' =
      [EvSend 1 [encode_utf8 "delete"; encode_utf8 "meshcat"; encode_utf8 "body"];
       EvRecv 1 (encode_utf8 "ok")].
Proof.
  assert (Hready : ready attached 0 1) by (eexists _, _; repeat split; reflexivity).
  split; [exact Hready|].
  destruct (send_transmits_one_request example_packb attached 0 1 (Delete meshcat)
              (encode_utf8 "body") (encode_utf8 "ok") [encode_utf8 "fine"]
              Hready eq_refl eq_refl) as (w' & H1 & H2 & _).
  exists w'. split; assumption.
Defined.

Lemma bare_requests_witness :
  ready attached 0 1 /\
  exists w',
    ViewerWindow_wait 0 attached = (Return "ok", w') /\
    new_events attached w' = [EvSend 1 [encode_utf8 "wait"]; EvRecv 1 (encode_utf8 "ok")].
Proof.
  assert (Hready : ready attached 0 1) by (eexists _, _; repeat split; reflexivity).
  split; [exact Hready|].
  destruct (bare_requests attached 0 1 (encode_utf8 "ok") [encode_utf8 "fine"]
              Hready eq_refl) as (_ & (w' & H1 & H2) & _).
  exists w'. split; assumption.
Defined.

Lemma attach_reconnects_witness :
  exists w',
    ViewerWindow_new (Some "tcp://127.0.0.1:6000") false []
      (boot "" ["http://127.0.0.1:7000/static/"]) = (Return 0, w') /\
    new_events (boot "" ["http://127.0.0.1:7000/static/"]) w' =
      [EvSocket 0; EvConnect 0 "tcp://127.0.0.1:6000";
       EvSend 0 [encode_utf8 "url"];
       EvRecv 0 (encode_utf8 "http://127.0.0.1:7000/static/");
       EvSocket 1; EvConnect 1 "tcp://127.0.0.1:6000";
       EvPrint banner_line; EvPrint "http://127.0.0.1:7000/static/"] /\
    ready w' 0 1.
Proof.
  destruct (attach_reconnects (boot "" ["http://127.0.0.1:7000/static/"])
              "tcp://127.0.0.1:6000" []
              (encode_utf8 "http://127.0.0.1:7000/static/") []
              "http://127.0.0.1:7000/static/" eq_refl eq_refl eq_refl)
    as (w' & H1 & H2 & _ & _ & _ & _ & H3).
  exists w'. repeat split; assumption.
Defined.

Lemma spawn_handshake_witness :
  (exists msg w',
     ViewerWindow_new None true [] (boot ("garbage" +:+ nl) []) =
       (Raise (ValueError msg), w') /\
     sockets w' = []) /\
  (exists msg w',
     ViewerWindow_new None true []
       (boot ("zmq_url=tcp://127.0.0.1:6000" +:+ nl +:+ "garbage" +:+ nl) []) =
       (Raise (ValueError msg), w') /\
     sockets w' = []) /\
  (exists w',
     ViewerWindow_new None true [] (boot good_banner []) = (Return 0, w') /\
     heap w' = [OWindow {| server_proc := Some 0;
                           zmq_url := Some "tcp://127.0.0.1:6000";
                           web_url := Some "http://127.0.0.1:7000/static/";
                           zmq_socket := Some 0 |}]).
Proof.
  split; [|split].
  - destruct (proj1 (spawn_handshake (boot ("garbage" +:+ nl) []) None []
                       (encode_utf8 ("garbage" +:+ nl)) [] "garbage" eq_refl eq_refl)
                _ eq_refl) as (msg & w' & H1 & _ & _ & H2).
    exists msg, w'. split; assumption.
  - destruct (proj1 (proj2 (spawn_handshake
                       (boot ("zmq_url=tcp://127.0.0.1:6000" +:+ nl +:+ "garbage" +:+ nl) [])
                       None []
                       (encode_utf8 ("zmq_url=tcp://127.0.0.1:6000" +:+ nl))
                       (encode_utf8 ("garbage" +:+ nl))
                       "zmq_url=tcp://127.0.0.1:6000" eq_refl eq_refl)
                       "tcp://127.0.0.1:6000" (encode_utf8 ("garbage" +:+ nl)) [] "garbage"
                       eq_refl eq_refl eq_refl)
                _ eq_refl) as (msg & w' & H1 & _ & _ & H2).
    exists msg, w'. split; assumption.
  - destruct (proj2 (proj2 (spawn_handshake (boot good_banner []) None []
                       (encode_utf8 ("zmq_url=tcp://127.0.0.1:6000" +:+ nl))
                       (encode_utf8 ("web_url=http://127.0.0.1:7000/static/" +:+ nl))
                       "zmq_url=tcp://127.0.0.1:6000" eq_refl eq_refl)
                       "tcp://127.0.0.1:6000"
                       (encode_utf8 ("web_url=http://127.0.0.1:7000/static/" +:+ nl)) []
                       "web_url=http://127.0.0.1:7000/static/"
                       eq_refl eq_refl eq_refl)
                "http://127.0.0.1:7000/static/" eq_refl eq_refl)
      as (w' & H1 & _ & H2 & _).
    exists w'. split; assumption.
Defined.

Lemma children_share_window_and_extend_path_witness :
  heap attached !! 1%nat = Some (OVisualizer {| window := 0; path := meshcat |}) /\
  exists va w1 vb w2,
    Visualizer_getitem 1 "a" attached = (Return va, w1) /\
    Visualizer_getitem 1 "b" w1 = (Return vb, w2) /\
    heap w2 !! va =
      Some (OVisualizer {| window := 0; path := {| segments := ["meshcat"; "a"] |} |}) /\
    heap w2 !! vb =
      Some (OVisualizer {| window := 0; path := {| segments := ["meshcat"; "b"] |} |}) /\
    heap w2 !! 1%nat = Some (OVisualizer {| window := 0; path := meshcat |}).
Proof.
  split; [reflexivity|].
  assert (Hab : "a" <> "b") by discriminate.
  destruct (children_share_window_and_extend_path attached 1
              {| window := 0; path := meshcat |} "a" "b" eq_refl Hab)
    as (va & w1 & vb & w2 & H1 & H2 & H3 & H4 & _ & _ & _ & H5 & _).
  exists va, w1, vb, w2. repeat split; assumption.
Defined.

Lemma constructor_roots_at_meshcat_witness :
  Visualizer_init (Some "tcp://127.0.0.1:6000") None []
    (boot "" ["http://127.0.0.1:7000/static/"; "ok"; "fine"]) = (Return 1, attached) /\
  (forall v w', derived example_packb 1 attached v w' -> meshcat_rooted w' v).
Proof.
  assert (H : Visualizer_init (Some "tcp://127.0.0.1:6000") None []
                (boot "" ["http://127.0.0.1:7000/static/"; "ok"; "fine"])
              = (Return 1, attached)) by (vm_compute; reflexivity).
  split; [exact H|].
  exact (proj1 (proj2 (constructor_roots_at_meshcat example_packb _ _ _ _ _ _ H))).
Defined.

Lemma set_transform_default_is_identity_witness :
  heap attached !! 1%nat = Some (OVisualizer {| window := 0; path := meshcat |}) /\
  ready attached 0 1 /\
  exists w',
    set_transform example_packb 1 None attached = (Return tt, w') /\
    new_events attached w' =
      [EvSend 1 [encode_utf8 "set_transform"; encode_utf8 "meshcat"; encode_utf8 "body"];
       EvRecv 1 (encode_utf8 "ok")].
Proof.
  assert (Hready : ready attached 0 1) by (eexists _, _; repeat split; reflexivity).
  split; [reflexivity|]. split; [exact Hready|].
  destruct (set_transform_default_is_identity example_packb attached 1
              {| window := 0; path := meshcat |} 1 (encode_utf8 "body")
              (encode_utf8 "ok") [encode_utf8 "fine"] eq_refl Hready eq_refl eq_refl)
    as (_ & _ & _ & w' & H1 & H2).
  exists w'. split; assumption.
Defined.

Lemma mutations_forward_to_send_witness :
  heap attached !! 1%nat = Some (OVisualizer {| window := 0; path := meshcat |}) /\
  Visualizer_delete example_packb 1 attached = send example_packb 0 (Delete meshcat) attached /\
  carries_path meshcat (Visualizer_delete example_packb 1) attached.
Proof.
  split; [reflexivity|].
  exact (proj1 (proj2 (proj2 (mutations_forward_to_send example_packb attached 1
                                {| window := 0; path := meshcat |} eq_refl)))).
Defined.

(** * More of the module

    ** The parser *)

Lemma has_newline_nl r : has_newline (String newline r) = true.
Proof. reflexivity. Qed.

Lemma strip_prefix_Some p s r : strip_prefix p s = Some r <-> s = p +:+ r.
Proof.
  revert s. induction p as [|a p IH]; intros s; simpl.
  - split; [intros [= ->]; reflexivity | intros ->; reflexivity].
  - destruct s as [|b s]; [split; discriminate|].
    destruct (Ascii.eqb_spec a b) as [->|Hne].
    + rewrite IH. split; [intros ->; reflexivity | intros [= ->]; reflexivity].
    + split; [discriminate | intros [= -> _]; contradiction].
Qed.

Lemma dot_star_eol_Some r g :
  dot_star_eol r = Some g <->
  has_newline g = false /\ (r = g \/ r = g +:+ nl).
Proof.
  revert g. induction r as [|c r IH]; intros g; simpl.
  - split.
    + intros [= <-]. split; [reflexivity | left; reflexivity].
    + intros [_ [<-|H]]; [reflexivity|]. destruct g; discriminate.
  - destruct (Ascii.eqb_spec c newline) as [->|Hne].
    + destruct r as [|d r].
      * split.
        { intros [= <-]. split; [reflexivity | right; reflexivity]. }
        { intros [Hg [<-|H]]; [rewrite has_newline_nl in Hg; discriminate|].
          destruct g as [|e g]; [reflexivity|].
          injection H as <- H. rewrite has_newline_nl in Hg. discriminate. }
      * split; [discriminate|].
        intros [Hg [<-|H]]; [rewrite has_newline_nl in Hg; discriminate|].
        destruct g as [|e g]; [discriminate|].
        injection H as <- H. rewrite has_newline_nl in Hg. discriminate.
    + destruct (dot_star_eol r) as [g'|] eqn:E; simpl.
      * split.
        { intros [= <-]. destruct (proj1 (IH g') eq_refl) as [Hg' Hr]. split.
          - simpl. rewrite Hg'. apply Ascii.eqb_neq in Hne. rewrite Hne. reflexivity.
          - destruct Hr as [->| ->]; [left | right]; reflexivity. }
        { intros [Hg Hr]. destruct g as [|e g].
          - destruct Hr as [H|H]; [discriminate|]. injection H as -> _. contradiction.
          - simpl in Hg. apply orb_false_iff in Hg as [_ Hg].
            assert (He : e = c /\ (r = g \/ r = g +:+ nl)).
            { destruct Hr as [H|H]; injection H as -> ->; split; auto. }
            destruct He as [-> Hr'].
            assert (Hgg : Some g' = Some g) by (apply IH; split; assumption).
            injection Hgg as ->. reflexivity. }
      * split; [discriminate|].
        intros [Hg Hr]. destruct g as [|e g].
        { destruct Hr as [H|H]; [discriminate|]. injection H as -> _. contradiction. }
        simpl in Hg. apply orb_false_iff in Hg as [_ Hg].
        assert (Hr' : r = g \/ r = g +:+ nl).
        { destruct Hr as [H|H]; injection H as -> ->; auto. }
        assert (Hgg : None = Some g) by (apply IH; split; assumption).
        discriminate.
Qed.

(** X1: [capture] with a pattern of the module accepts exactly the strings
    made of the literal and a group free of line feeds, followed by at most
    one final line feed, and returns that group; every other string is
    refused. *)
Theorem capture_accepts_exactly p s g :
  capture p s = inr g <->
  has_newline g = false /\ (s = literal p +:+ g \/ s = literal p +:+ g +:+ nl).
Proof.
  unfold capture, re_match.
  destruct (strip_prefix (literal p) s) as [r|] eqn:E.
  - apply strip_prefix_Some in E. subst s.
    destruct (dot_star_eol r) as [g'|] eqn:E'.
    + split.
      * intros [= <-]. apply dot_star_eol_Some in E' as [Hg Hr].
        split; [exact Hg|]. destruct Hr as [->| ->]; auto.
      * intros [Hg Hs].
        assert (Hr : r = g \/ r = g +:+ nl).
        { destruct Hs as [H|H]; apply (String.app_inj (literal p)) in H; auto. }
        assert (H : dot_star_eol r = Some g) by (apply dot_star_eol_Some; auto).
        rewrite E' in H. injection H as ->. reflexivity.
    + split; [discriminate|]. intros [Hg Hs].
      assert (Hr : r = g \/ r = g +:+ nl).
      { destruct Hs as [H|H]; apply (String.app_inj (literal p)) in H; auto. }
      assert (H : dot_star_eol r = Some g) by (apply dot_star_eol_Some; auto).
      rewrite E' in H. discriminate.
  - split; [discriminate|]. intros [Hg Hs].
    assert (H : exists r, strip_prefix (literal p) s = Some r).
    { destruct Hs as [->| ->]; eexists; apply strip_prefix_Some; reflexivity. }
    destruct H as (r & H). rewrite E in H. discriminate.
Qed.

(** ** srcdoc_escape *)

Lemma append_assoc (s1 s2 s3 : string) : (s1 +:+ s2) +:+ s3 = s1 +:+ (s2 +:+ s3).
Proof.
  induction s1 as [|a s1 IH]; [reflexivity|].
  change (String a ((s1 +:+ s2) +:+ s3) = String a (s1 +:+ (s2 +:+ s3))).
  rewrite IH. reflexivity.
Qed.

Lemma replace_char_app c new s1 s2 :
  replace_char c new (s1 +:+ s2) = replace_char c new s1 +:+ replace_char c new s2.
Proof.
  induction s1 as [|a s1 IH]; simpl; [reflexivity|].
  rewrite IH. destruct (Ascii.eqb a c); simpl.
  - symmetry. apply append_assoc.
  - reflexivity.
Qed.

Lemma srcdoc_escape_cons a r :
  srcdoc_escape (String a r) = srcdoc_escape (String a "") +:+ srcdoc_escape r.
Proof.
  unfold srcdoc_escape.
  change (String a r) with (String a "" +:+ r).
  rewrite !replace_char_app. reflexivity.
Qed.

Lemma srcdoc_unescape_escaped_char a s :
  srcdoc_unescape (srcdoc_escape (String a "") +:+ s) = String a (srcdoc_unescape s).
Proof.
  destruct a as [[] [] [] [] [] [] [] []]; reflexivity.
Qed.

Lemma occurs_app c s1 s2 : occurs c (s1 +:+ s2) = occurs c s1 || occurs c s2.
Proof.
  induction s1 as [|a s1 IH]; simpl; [reflexivity|].
  rewrite IH. apply orb_assoc.
Qed.

Lemma escaped_char_has_no_quote a : occurs dq (srcdoc_escape (String a "")) = false.
Proof. destruct a as [[] [] [] [] [] [] [] []]; reflexivity. Qed.

(** X2: the text [srcdoc_escape] returns holds no double quote, so it
    cannot end the attribute it is put in, and it can be read back: undoing
    the two entities gives the text that was escaped, whatever it was
    (ampersands that already begin an entity included). *)
Theorem srcdoc_escape_is_safe_and_reversible x :
  occurs dq (srcdoc_escape x) = false /\
  srcdoc_unescape (srcdoc_escape x) = x.
Proof.
  induction x as [|a x [IHq IHu]]; [split; reflexivity|].
  rewrite srcdoc_escape_cons. split.
  - rewrite occurs_app, escaped_char_has_no_quote, IHq. reflexivity.
  - rewrite srcdoc_unescape_escaped_char, IHu. reflexivity.
Qed.

(** ** Requests and replies in sequence *)

Lemma issue_ready w self s q r rest :
  ready w self s -> replies w = r :: rest ->
  issue self q w = (decoded r, exchanged s [frame_of q] w).
Proof.
  intros Hready Hr. destruct q; simpl.
  - apply (request_web_url_ready w self s r rest Hready Hr).
  - apply (wait_ready w self s r rest Hready Hr).
  - apply (get_scene_ready w self s r rest Hready Hr).
Qed.

Lemma exchanged_ready w self s request r rest :
  ready w self s -> replies w = r :: rest -> ready (exchanged s request w) self s.
Proof.
  intros (x & u & Hx & Hs & Hsk) Hr.
  destruct (exchanged_spec w s request r rest Hr) as (Hh & Hso & _).
  exists x, u. rewrite Hh, Hso. auto.
Qed.

Lemma new_events_trans w1 w2 w3 evs1 evs2 :
  trace w2 = trace w1 ++ evs1 -> trace w3 = trace w2 ++ evs2 ->
  new_events w1 w3 = evs1 ++ evs2.
Proof.
  intros H1 H2. unfold new_events. rewrite H2, H1, <- app_assoc.
  apply drop_app_length.
Qed.

Lemma exchanged_trace w s request r rest :
  replies w = r :: rest ->
  trace (exchanged s request w) = trace w ++ [EvSend s request; EvRecv s r].
Proof.
  intros Hr. unfold exchanged. rewrite Hr. simpl. rewrite <- app_assoc. reflexivity.
Qed.

(** X3: requests made one after the other on a window whose socket is
    connected and idle, to a peer that has an answer in UTF-8 for each of
    them, all return; the answers come back in the order of the requests,
    the wire sees request and reply strictly alternate, and the window is
    left as it was found, idle, for the next request. *)
Theorem requests_alternate_with_replies self s qs :
  forall w ts rest,
    ready w self s ->
    length ts = length qs ->
    replies w = map encode_utf8 ts ++ rest ->
    Forall (fun t => decode_utf8 (encode_utf8 t) = Some t) ts ->
    exists w',
      issue_all self qs w = (Return ts, w') /\
      trace w' = trace w ++ exchanges s qs (map encode_utf8 ts) /\
      replies w' = rest /\
      ready w' self s.
Proof.
  induction qs as [|q qs IH]; intros w ts rest Hready Hlen Hr Hts.
  - destruct ts; [|discriminate]. exists w. simpl in *.
    rewrite app_nil_r. auto.
  - destruct ts as [|t ts]; [discriminate|].
    simpl in Hr. inversion Hts as [|? ? Ht Hts']; subst.
    pose proof (issue_ready w self s q _ _ Hready Hr) as Hq.
    unfold decoded in Hq. rewrite Ht in Hq.
    destruct (exchanged_spec w s [frame_of q] _ _ Hr) as (_ & _ & _ & Hrest & _).
    destruct (IH (exchanged s [frame_of q] w) ts rest
                 (exchanged_ready w self s _ _ _ Hready Hr)
                 (f_equal pred Hlen) Hrest Hts')
      as (w' & Hall & Htr & Hrs & Hready').
    exists w'. split; [|split; [|split]]; try assumption.
    + simpl. run Hq. run Hall. reflexivity.
    + rewrite Htr, (exchanged_trace w s _ _ _ Hr), <- app_assoc. reflexivity.
Qed.

Lemma requests_alternate_with_replies_witness :
  exists w',
    issue_all 0 [req_wait; req_get_scene] attached = (Return ["ok"; "fine"], w') /\
    trace w' = trace attached ++
      [EvSend 1 [encode_utf8 "wait"]; EvRecv 1 (encode_utf8 "ok");
       EvSend 1 [encode_utf8 "get_scene"]; EvRecv 1 (encode_utf8 "fine")].
Proof.
  assert (Hready : ready attached 0 1) by (eexists _, _; repeat split; reflexivity).
  assert (Hts : Forall (fun t => decode_utf8 (encode_utf8 t) = Some t) ["ok"; "fine"])
    by (repeat constructor).
  destruct (requests_alternate_with_replies 0 1 [req_wait; req_get_scene]
              attached ["ok"; "fine"] [] Hready eq_refl eq_refl Hts)
    as (w' & H1 & H2 & _).
  exists w'. split; assumption.
Defined.

(** ** No answer *)

Lemma window_no_reply {A} (k : bytes -> M A) w self s request :
  ready w self s ->
  replies w = [] ->
  exists w',
    (s0 <- get_zmq_socket self ;;
     socket_send_multipart s0 request ;;
     s1 <- get_zmq_socket self ;;
     reply <- socket_recv s1 ;;
     k reply) w = (Hang, w') /\
    trace w' = trace w ++ [EvSend s request] /\
    heap w' = heap w /\
    awaiting w' s.
Proof.
  intros (x & u & Hx & Hs & Hsk) Hr.
  eexists. split.
  - run (get_zmq_socket_ok w self x s Hx Hs).
    unfold bind at 1. unfold socket_send_multipart at 1. rewrite Hsk. simpl awaiting_reply.
    cbv iota. simpl endpoint. cbv iota.
    unfold bind at 1. unfold get_zmq_socket at 1, bind at 1, load_window at 1.
    simpl heap. rewrite Hx. rewrite Hs.
    unfold bind, ret. unfold socket_recv. simpl sockets.
    rewrite list_lookup_insert_eq by (eapply lookup_lt_Some; exact Hsk).
    simpl. rewrite Hr. reflexivity.
  - simpl. split; [reflexivity|]. split; [reflexivity|].
    exists u. apply list_lookup_insert_eq. eapply lookup_lt_Some; exact Hsk.
Qed.

(** X4: nothing bounds the wait for a reply.  On a window whose socket is
    connected and idle, when the peer does not answer, each of the URL
    query, the wait and the scene query puts its request on the wire and
    then never returns: no exception is raised, and the socket stays with
    its request out. *)
Theorem unanswered_request_blocks w self s q :
  ready w self s ->
  replies w = [] ->
  exists w',
    issue self q w = (Hang, w') /\
    new_events w w' = [EvSend s [frame_of q]] /\
    awaiting w' s.
Proof.
  intros Hready Hr.
  assert (H : forall k : bytes -> M str, exists w',
             (s0 <- get_zmq_socket self ;;
              socket_send_multipart s0 [frame_of q] ;;
              s1 <- get_zmq_socket self ;;
              reply <- socket_recv s1 ;;
              k reply) w = (Hang, w') /\
             new_events w w' = [EvSend s [frame_of q]] /\ awaiting w' s).
  { intros k. destruct (window_no_reply k w self s [frame_of q] Hready Hr)
      as (w' & H1 & H2 & _ & H3).
    exists w'. split; [exact H1|]. split; [|exact H3].
    unfold new_events. rewrite H2. apply drop_app_length. }
  destruct q; simpl.
  - apply (H (fun r => response <- decode r ;; ret response)).
  - apply (H decode).
  - apply (H decode).
Qed.

Lemma unanswered_request_blocks_witness :
  exists w',
    ViewerWindow_wait 0 (with_replies [] attached) = (Hang, w') /\
    new_events (with_replies [] attached) w' = [EvSend 1 [encode_utf8 "wait"]].
Proof.
  assert (Hready : ready (with_replies [] attached) 0 1)
    by (eexists _, _; repeat split; reflexivity).
  destruct (unanswered_request_blocks (with_replies [] attached) 0 1 req_wait
              Hready eq_refl) as (w' & H1 & H2 & _).
  exists w'. split; assumption.
Defined.

(** ** connect_zmq *)

(** X5: every call of [connect_zmq] makes a socket that did not exist and
    makes it the socket of the window, before it tries to connect it; the
    sockets made earlier stay as they were (none is closed).  When the
    library accepts the endpoint the window is ready on the new socket;
    when it refuses it, [ZMQError] is raised and the window is left holding
    the new socket, unconnected. *)
Theorem connect_zmq_makes_a_new_socket w self x u :
  heap w !! self = Some (OWindow x) ->
  zmq_url x = Some u ->
  let s := length (sockets w) in
  exists w',
    connect_zmq self w =
      (if endpoint_ok w u then Return tt else Raise (ZMQError "Invalid argument"), w') /\
    heap w' = <[self := OWindow {| server_proc := server_proc x; zmq_url := Some u;
                                   web_url := web_url x; zmq_socket := Some s |}]> (heap w) /\
    sockets w' = sockets w ++
      [{| endpoint := if endpoint_ok w u then Some u else None;
          awaiting_reply := false |}] /\
    (endpoint_ok w u = true -> ready w' self s).
Proof.
  intros Hx Hu. destruct x as [sp zu wu zs]. simpl in Hu. subst zu.
  destruct w as [h sk ps ax tr exe file ban bc ok rs]. simpl in *.
  pose proof (lookup_lt_Some _ _ _ Hx) as Hlt.
  destruct (ok u) eqn:Hok; eexists; (split; [|split; [|split]]).
  - repeat (exec; rewrite ?Hx, ?Hok, ?list_lookup_insert_eq by exact Hlt). reflexivity.
  - reflexivity.
  - reflexivity.
  - intros _. eexists _, u. simpl.
    split; [apply list_lookup_insert_eq; exact Hlt|].
    split; [reflexivity | apply lookup_snoc].
  - repeat (exec; rewrite ?Hx, ?Hok, ?list_lookup_insert_eq by exact Hlt). reflexivity.
  - reflexivity.
  - reflexivity.
  - discriminate.
Qed.

Lemma connect_zmq_makes_a_new_socket_witness :
  exists w',
    connect_zmq 0 attached = (Return tt, w') /\
    length (sockets w') = 3 /\
    ready w' 0 2.
Proof.
  destruct (connect_zmq_makes_a_new_socket attached 0
              {| server_proc := None; zmq_url := Some "tcp://127.0.0.1:6000";
                 web_url := Some "http://127.0.0.1:7000/static/"; zmq_socket := Some 1 |}
              "tcp://127.0.0.1:6000" eq_refl eq_refl)
    as (w' & H1 & _ & H3 & H4).
  exists w'. split; [exact H1|]. split; [rewrite H3; reflexivity|].
  apply H4. reflexivity.
Defined.

(** ** url, open, jupyter_cell *)

Lemma count_char_app c s1 s2 :
  count_char c (s1 +:+ s2) = count_char c s1 + count_char c s2.
Proof.
  induction s1 as [|a s1 IH]; [reflexivity|].
  change (count_char c (String a (s1 +:+ s2)) =
          (if Ascii.eqb a c then 1 else 0) + count_char c s1 + count_char c s2).
  simpl. rewrite IH. lia.
Qed.

Lemma count_char_cell_html indent attribute value :
  count_char dq indent = 0 -> count_char dq attribute = 0 ->
  count_char dq (cell_html indent attribute value) = 6 + count_char dq value.
Proof.
  intros Hi Ha. unfold cell_html, quoted, nl.
  repeat rewrite count_char_app. rewrite ?Hi, ?Ha.
  change (String dq value) with (String dq "" +:+ value).
  repeat rewrite count_char_app. simpl. lia.
Qed.

Lemma not_occurs_count c s : occurs c s = false -> count_char c s = 0.
Proof.
  induction s as [|a s IH]; [reflexivity|]. simpl.
  destruct (Ascii.eqb a c); [discriminate|]. exact IH.
Qed.

Lemma leaves_bind {A B} (m : M A) (k : A -> M B) :
  leaves_world m -> (forall a, leaves_world (k a)) -> leaves_world (bind m k).
Proof.
  intros Hm Hk w out w'. unfold bind.
  destruct (m w) as [[a|e|] w1] eqn:E; pose proof (Hm _ _ _ E) as ->.
  - apply Hk.
  - intros [= <- <-]. reflexivity.
  - intros [= <- <-]. reflexivity.
Qed.

Lemma leaves_ret {A} (a : A) : leaves_world (ret a).
Proof. intros w out w' [= <- <-]. reflexivity. Qed.

Lemma leaves_raise {A} e : leaves_world (@raise A e).
Proof. intros w out w' [= <- <-]. reflexivity. Qed.

Lemma leaves_load_visualizer v : leaves_world (load_visualizer v).
Proof.
  intros w out w'. unfold load_visualizer.
  repeat case_match; intros [= <- <-]; reflexivity.
Qed.

Lemma leaves_load_window v : leaves_world (load_window v).
Proof.
  intros w out w'. unfold load_window.
  repeat case_match; intros [= <- <-]; reflexivity.
Qed.

Lemma leaves_get_web_url self : leaves_world (get_web_url self).
Proof.
  unfold get_web_url. apply leaves_bind; [apply leaves_load_window|].
  intros x. destruct (web_url x); [apply leaves_ret | apply leaves_raise].
Qed.

Lemma leaves_url v : leaves_world (url v).
Proof.
  unfold url. apply leaves_bind; [apply leaves_load_visualizer|].
  intros vis. apply leaves_get_web_url.
Qed.

(** X6: [url], [jupyter_cell] and [open] never use the socket.  Whatever
    the world and whatever they return or raise, [url] and [jupyter_cell]
    leave the world as it is, and [open] adds at most the opening of the
    browser to the trace; on a view whose window has its public URL,
    [url] returns it, [open] opens the browser on it and returns the view
    it was called on, and [jupyter_cell] puts the URL in its frame as it
    is, quotes included. *)
Theorem url_open_and_cell_send_nothing w v :
  (forall out w', url v w = (out, w') -> w' = w) /\
  (forall out w', jupyter_cell v w = (out, w') -> w' = w) /\
  (forall out w', Visualizer_open v w = (out, w') ->
     w' = w \/ exists u, w' = log (EvBrowser u) w) /\
  (forall vis x u,
     heap w !! v = Some (OVisualizer vis) ->
     heap w !! window vis = Some (OWindow x) ->
     web_url x = Some u ->
     url v w = (Return u, w) /\
     Visualizer_open v w = (Return v, log (EvBrowser u) w) /\
     exists h, jupyter_cell v w = (Return h, w) /\
               count_char dq (data h) = 6 + count_char dq u).
Proof.
  split; [|split; [|split]].
  - intros out w'. apply leaves_url.
  - intros out w'. unfold jupyter_cell.
    apply leaves_bind; [apply leaves_url | intros u; apply leaves_ret].
  - intros out w'. unfold Visualizer_open, bind.
    destruct (load_visualizer v w) as [[vis|e|] w1] eqn:E1;
      pose proof (leaves_load_visualizer _ _ _ _ E1) as ->;
      [|intros [= <- <-]; auto..].
    unfold ViewerWindow_open, bind.
    destruct (get_web_url (window vis) w) as [[u|e|] w2] eqn:E2;
      pose proof (leaves_get_web_url _ _ _ _ E2) as ->;
      [|intros [= <- <-]; auto..].
    simpl. intros [= <- <-]. right. exists u. reflexivity.
  - intros vis x u Hv Hx Hu.
    assert (Hurl : url v w = (Return u, w)).
    { unfold url. run (load_visualizer_ok w v vis Hv).
      apply (get_web_url_ok w (window vis) x u Hx Hu). }
    split; [exact Hurl|]. split.
    + assert (Hopen : ViewerWindow_open (window vis) w
                      = (Return (window vis), log (EvBrowser u) w)).
      { unfold ViewerWindow_open. run (get_web_url_ok w (window vis) x u Hx Hu).
        reflexivity. }
      unfold Visualizer_open. run (load_visualizer_ok w v vis Hv).
      run Hopen. reflexivity.
    + eexists. split.
      * unfold jupyter_cell. run Hurl. reflexivity.
      * exact (count_char_cell_html "            " "src" u eq_refl eq_refl).
Qed.

(** ** static_html and render_static *)

(** X7: on a view whose window is connected and idle, with a peer that
    answers the scene query with a document in UTF-8, [static_html] returns
    the document and [render_static] returns the frame template around the
    escaped document, each for one request "get_scene"; whatever the
    document holds, the HTML of [render_static] has the six double quotes
    of the template and no other, so the document cannot leave its
    attribute. *)
Theorem render_static_wraps_the_escaped_scene w v vis s r rest doc :
  heap w !! v = Some (OVisualizer vis) ->
  ready w (window vis) s ->
  replies w = r :: rest ->
  decode_utf8 r = Some doc ->
  static_html v w = (Return doc, exchanged s [encode_utf8 "get_scene"] w) /\
  render_static v w =
    (Return {| data := cell_html "        " "srcdoc" (srcdoc_escape doc) |},
     exchanged s [encode_utf8 "get_scene"] w) /\
  new_events w (exchanged s [encode_utf8 "get_scene"] w) =
    [EvSend s [encode_utf8 "get_scene"]; EvRecv s r] /\
  count_char dq (cell_html "        " "srcdoc" (srcdoc_escape doc)) = 6.
Proof.
  intros Hv Hready Hr Hdoc.
  assert (Hs : static_html v w = (Return doc, exchanged s [encode_utf8 "get_scene"] w)).
  { unfold static_html. run (load_visualizer_ok w v vis Hv).
    rewrite (get_scene_ready w (window vis) s r rest Hready Hr).
    unfold decoded. rewrite Hdoc. reflexivity. }
  split; [exact Hs|]. split; [|split].
  - unfold render_static. run Hs. reflexivity.
  - apply (exchanged_spec w s _ r rest Hr).
  - rewrite count_char_cell_html by reflexivity.
    rewrite (not_occurs_count dq _ (proj1 (srcdoc_escape_is_safe_and_reversible doc))).
    reflexivity.
Qed.

Lemma render_static_wraps_the_escaped_scene_witness :
  heap attached !! 1%nat = Some (OVisualizer {| window := 0; path := meshcat |}) /\
  ready attached 0 1 /\
  render_static 1 attached =
    (Return {| data := cell_html "        " "srcdoc" (srcdoc_escape "ok") |},
     exchanged 1 [encode_utf8 "get_scene"] attached).
Proof.
  assert (Hready : ready attached 0 1) by (eexists _, _; repeat split; reflexivity).
  split; [reflexivity|]. split; [exact Hready|].
  exact (proj1 (proj2 (render_static_wraps_the_escaped_scene attached 1
                         {| window := 0; path := meshcat |} 1 (encode_utf8 "ok")
                         [encode_utf8 "fine"] "ok" eq_refl Hready eq_refl eq_refl))).
Defined.

(** ** Spawning the server *)

Lemma bind_assoc {A B C} (m : M A) (k : A -> M B) (k' : B -> M C) w :
  bind (bind m k) k' w = bind m (fun a => bind (k a) k') w.
Proof. unfold bind. destruct (m w) as [[a|e|] w1]; reflexivity. Qed.

Section Respects.

Variable R : World -> World -> Prop.
Hypothesis R_refl : forall w, R w w.
Hypothesis R_trans : forall w1 w2 w3, R w1 w2 -> R w2 w3 -> R w1 w3.

Lemma respects_bind {A B} (m : M A) (k : A -> M B) :
  respects R m -> (forall a, respects R (k a)) -> respects R (bind m k).
Proof.
  intros Hm Hk w out w'. unfold bind.
  destruct (m w) as [[a|e|] w1] eqn:E; intros H.
  - eapply R_trans; [eapply Hm, E | eapply Hk, H].
  - injection H as <- <-. eapply Hm, E.
  - injection H as <- <-. eapply Hm, E.
Qed.

Lemma respects_ret {A} (a : A) : respects R (ret a).
Proof. intros w out w' [= <- <-]. apply R_refl. Qed.

Lemma respects_raise {A} e : respects R (@raise A e).
Proof. intros w out w' [= <- <-]. apply R_refl. Qed.

Lemma respects_hang {A} : respects R (@hang A).
Proof. intros w out w' [= <- <-]. apply R_refl. Qed.

Lemma respects_get : respects R get.
Proof. intros w out w' [= <- <-]. apply R_refl. Qed.

Lemma respects_lift {A} (r : Exception + A) : respects R (lift r).
Proof. destruct r; [apply respects_raise | apply respects_ret]. Qed.

Lemma respects_decode b : respects R (decode b).
Proof. unfold decode. destruct (decode_utf8 b); [apply respects_ret | apply respects_raise]. Qed.

End Respects.

Lemma lasting_refl w : lasting w w.
Proof.
  split; [exists []; symmetry; apply app_nil_r|].
  intros pid p Hp Ha. exists p. auto.
Qed.

Lemma lasting_trans w1 w2 w3 : lasting w1 w2 -> lasting w2 w3 -> lasting w1 w3.
Proof.
  intros [[e1 H1] P1] [[e2 H2] P2]. split.
  - exists (e1 ++ e2). rewrite H2, H1, app_assoc. reflexivity.
  - intros pid p Hp Ha.
    destruct (P1 pid p Hp Ha) as (p1 & Hp1 & Hargv1 & Henv1 & Ha1).
    destruct (P2 pid p1 Hp1 Ha1) as (p2 & Hp2 & Hargv2 & Henv2 & Ha2).
    exists p2. repeat split; congruence.
Qed.

(** Worlds with the same processes and a trace that has grown. *)
Lemma lasting_same_processes w w' evs :
  trace w' = trace w ++ evs -> processes w' = processes w -> lasting w w'.
Proof.
  intros Ht Hp. split; [exists evs; exact Ht|].
  intros pid p Hpid Ha. exists p. rewrite Hp. auto.
Qed.

Ltac quiet :=
  let w := fresh "w" in let out := fresh "out" in let w' := fresh "w'" in
  intros w out w';
  repeat case_match; intros [= <- <-];
  first [ apply lasting_refl
        | eapply lasting_same_processes; [simpl; reflexivity | reflexivity]
        | eapply (lasting_same_processes _ _ []); [simpl; symmetry; apply app_nil_r | reflexivity] ].

Lemma lasting_alloc o : respects lasting (alloc o).
Proof. unfold alloc. quiet. Qed.

Lemma lasting_load_window a : respects lasting (load_window a).
Proof. unfold load_window. quiet. Qed.

Lemma lasting_store a o : respects lasting (store a o).
Proof. unfold store, modify. quiet. Qed.

Lemma lasting_context_socket : respects lasting context_socket.
Proof. unfold context_socket. quiet. Qed.

Lemma lasting_socket_connect s u : respects lasting (socket_connect s u).
Proof. unfold socket_connect. quiet. Qed.

Lemma lasting_socket_send_multipart s parts :
  respects lasting (socket_send_multipart s parts).
Proof. unfold socket_send_multipart. quiet. Qed.

Lemma lasting_socket_recv s : respects lasting (socket_recv s).
Proof. unfold socket_recv. quiet. Qed.

Lemma lasting_atexit_register self : respects lasting (atexit_register self).
Proof. unfold atexit_register, modify. quiet. Qed.

Lemma lasting_print t : respects lasting (print t).
Proof. unfold print, modify. quiet. Qed.

Lemma lasting_Popen args env : respects lasting (Popen args env).
Proof.
  intros w out w' [= <- <-]. split; [eexists; reflexivity|].
  intros pid p Hp Ha. exists p. simpl. split; [apply lookup_app_l_Some, Hp | auto].
Qed.

Lemma lasting_insert_stdout w pid p out e :
  processes w !! pid = Some p ->
  lasting w (log e (with_processes (<[pid := set_stdout out p]> (processes w)) w)).
Proof.
  intros Hp. split; [eexists; reflexivity|].
  intros pid' p' Hp' Ha. simpl.
  destruct (decide (pid = pid')) as [<-|Hne].
  - rewrite list_lookup_insert_eq by (eapply lookup_lt_Some; exact Hp).
    rewrite Hp in Hp'. injection Hp' as <-.
    eexists. split; [reflexivity|]. auto.
  - rewrite list_lookup_insert_ne by exact Hne. exists p'. auto.
Qed.

Lemma lasting_stdout_readline pid : respects lasting (stdout_readline pid).
Proof.
  intros w out w'. unfold stdout_readline.
  destruct (processes w !! pid) as [p|] eqn:Hp; [|intros [= <- <-]; apply lasting_refl].
  repeat case_match; intros [= <- <-];
    first [apply lasting_refl | apply lasting_insert_stdout; exact Hp].
Qed.

Create HintDb lasting.
#[export] Hint Resolve lasting_refl lasting_trans : lasting.
#[export] Hint Resolve lasting_alloc lasting_load_window lasting_store
  lasting_context_socket lasting_socket_connect lasting_socket_send_multipart
  lasting_socket_recv lasting_atexit_register lasting_print lasting_Popen
  lasting_stdout_readline : lasting.

Ltac lasts :=
  repeat first
    [ solve [auto with lasting]
    | apply respects_ret; solve [auto with lasting]
    | apply respects_raise; solve [auto with lasting]
    | apply respects_hang; solve [auto with lasting]
    | apply respects_get; solve [auto with lasting]
    | apply respects_lift; solve [auto with lasting]
    | apply respects_decode; solve [auto with lasting]
    | apply respects_bind; [apply lasting_trans| |intros ?]
    | match goal with
      | |- respects _ (match ?x with _ => _ end) => destruct x
      | |- respects _ (if ?b then _ else _) => destruct b
      end ].

Lemma lasting_ViewerWindow_init self zmq_url start_server args :
  respects lasting (ViewerWindow_init self zmq_url start_server args).
Proof.
  unfold ViewerWindow_init, connect_zmq, request_web_url, set_server_proc, set_zmq_url,
    set_web_url, set_zmq_socket, get_zmq_socket, get_web_url, socket_send.
  lasts.
Qed.

Lemma spawn_prefix {A} (k : nat -> M A) args env w out w' :
  (forall p, respects lasting (k p)) ->
  bind (Popen args env) k w = (out, w') ->
  exists evs p,
    new_events w w' = EvPopen (length (processes w)) args env :: evs /\
    processes w' !! length (processes w) = Some p /\
    argv p = args /\ environ p = env /\ alive p = true.
Proof.
  intros Hk. unfold bind, Popen. intros H.
  destruct (Hk _ _ _ _ H) as [[evs Ht] Hp].
  destruct (Hp (length (processes w))
              {| argv := args; environ := env; stdout := server_banner w;
                 stdout_closes := banner_closes w; alive := true; reaped := false |})
    as (p & Hp1 & Hp2 & Hp3 & Hp4); [simpl; apply lookup_snoc | reflexivity |].
  exists evs, p. split; [|auto].
  unfold new_events. rewrite Ht. simpl. rewrite <- app_assoc. apply drop_app_length.
Qed.

(** X8: in spawn mode, whatever the server prints and however the
    construction ends (a window, an exception, or no end at all), the
    first thing done is to start the server, with the interpreter, the
    module of the server, the arguments of the caller as they are and, when
    an endpoint was given, the option of the endpoint last; the environment
    of the server is the one variable PYTHONPATH.  Nothing in the
    construction kills the server: no kill has been sent to it when the
    construction ends, also when it ends with an exception. *)
Theorem spawn_starts_the_server_first w zmq_url args out w' :
  ViewerWindow_new zmq_url true args w = (out, w') ->
  let pid := length (processes w) in
  exists evs p,
    new_events w w' = EvPopen pid (spawn_args w zmq_url args) (spawn_env w) :: evs /\
    processes w' !! pid = Some p /\
    argv p = spawn_args w zmq_url args /\
    environ p = spawn_env w /\
    alive p = true.
Proof.
  intros H. unfold ViewerWindow_new, ViewerWindow_init in H.
  unfold bind at 1 in H. unfold alloc at 1 in H. cbv beta iota in H.
  rewrite !bind_assoc in H. unfold bind at 1 in H. unfold get at 1 in H.
  cbv beta iota zeta in H. rewrite !bind_assoc in H.
  eapply spawn_prefix in H.
  - destruct H as (evs & p & H1 & H2 & H3 & H4 & H5).
    exists evs, p. unfold spawn_args, spawn_env.
    destruct zmq_url; simpl in *; rewrite ?app_nil_r; repeat split; assumption.
  - intros p. unfold connect_zmq, request_web_url, set_server_proc, set_zmq_url,
      set_web_url, set_zmq_socket, get_zmq_socket, get_web_url, socket_send.
    simpl negb. cbv iota. lasts.
Qed.

Lemma spawn_starts_the_server_first_witness :
  exists out w' evs p,
    ViewerWindow_new (Some "tcp://127.0.0.1:6000") true ["--open"]
      (boot ("garbage" +:+ nl) []) = (out, w') /\
    new_events (boot ("garbage" +:+ nl) []) w' =
      EvPopen 0 ["/usr/bin/python3"; "-u"; "-m"; "meshcat.servers.zmqserver";
                 "--open"; "--zmq-url"; "tcp://127.0.0.1:6000"]
              [("PYTHONPATH", "/srv/app")] :: evs /\
    processes w' !! 0 = Some p /\
    alive p = true.
Proof.
  pose proof (surjective_pairing
                (ViewerWindow_new (Some "tcp://127.0.0.1:6000") true ["--open"]
                   (boot ("garbage" +:+ nl) []))) as H.
  destruct (spawn_starts_the_server_first _ _ _ _ _ H) as (evs & p & H1 & H2 & _ & _ & H5).
  eexists _, _, evs, p. split; [exact H|]. split; [exact H1|]. split; [exact H2|exact H5].
Defined.
